(** * LexiQuest: the quiz session and the two-tier answer check

    A shallow embedding of [App.tsx] (the quiz state and its handlers),
    of the [QuizCard] component (the answer form) and of
    [services/geminiService.ts] (the two calls to the generative
    backend, with the types of [types.ts]), followed by the properties
    of the session state machine and of the verification protocol. *)

From Stdlib Require Import List Bool Arith ZArith NArith Lia.
From Stdlib Require Import Ascii String.
From Stdlib Require Import Floats.
Import ListNotations.

Set Implicit Arguments.

(* ================================================================== *)
(** * JavaScript strings *)
(* ================================================================== *)

(** A JavaScript string is a finite sequence of UTF-16 code units;
    [includes] and [trim] work on code units, so that is what we keep. *)
Module JS.

Definition code_unit := N.
Definition jsstring := list code_unit.

(** String literals of the source that are plain ASCII. *)
Definition lit (s : string) : jsstring :=
  map N_of_ascii (list_ascii_of_string s).

(** [s.startsWith(t)]. *)
Fixpoint startsWith (s t : jsstring) {struct t} : bool :=
  match t, s with
  | [], _ => true
  | _ :: _, [] => false
  | c :: t', d :: s' => N.eqb c d && startsWith s' t'
  end.

(** [s.includes(t)]: [t] occurs in [s] at some position. *)
Fixpoint includes (s t : jsstring) : bool :=
  startsWith s t ||
  match s with
  | [] => false
  | _ :: s' => includes s' t
  end.

(** WhiteSpace and LineTerminator code points of ECMAScript, the ones
    [String.prototype.trim] strips; all of them are single code units. *)
Definition isWhiteSpace (c : code_unit) : bool :=
  existsb (N.eqb c)
    [0x0009; 0x000A; 0x000B; 0x000C; 0x000D; 0x0020; 0x00A0; 0x1680;
     0x2000; 0x2001; 0x2002; 0x2003; 0x2004; 0x2005; 0x2006; 0x2007;
     0x2008; 0x2009; 0x200A; 0x2028; 0x2029; 0x202F; 0x205F; 0x3000;
     0xFEFF]%N.

Fixpoint trimStart (s : jsstring) : jsstring :=
  match s with
  | c :: s' => if isWhiteSpace c then trimStart s' else s
  | [] => []
  end.

Definition trimEnd (s : jsstring) : jsstring := rev (trimStart (rev s)).

(** [s.trim()]. *)
Definition trim (s : jsstring) : jsstring := trimEnd (trimStart s).

(** Truthiness of a string: only the empty string is falsy. *)
Definition truthy (s : jsstring) : bool :=
  match s with [] => false | _ :: _ => true end.

(** The mathematical reading of [includes]: [t] is a substring of [s]. *)
Definition substring_of (t s : jsstring) : Prop :=
  exists pre post, s = pre ++ t ++ post.

End JS.
Import JS.

(* ================================================================== *)
(** * types.ts *)
(* ================================================================== *)

Inductive VocabularyLevel := CET6 | KAOYAN.

Record WordItem := {
  word : jsstring;
  phonetic : jsstring;
  meanings : list jsstring;
  example : jsstring;
  exampleTranslation : jsstring
}.

(** Counters are JavaScript numbers that start at 0 and only ever grow
    by 1; they are kept as [nat]. *)
Record QuizState := {
  currentWordIndex : nat;
  words : list WordItem;
  score : nat;
  totalAnswered : nat;
  streak : nat;
  isFinished : bool
}.

Inductive LoadingState := IDLE | LOADING | ERROR | READY.

Record CheckResult := {
  isCorrect : bool;
  userAnswer : jsstring;
  explanation : option jsstring
}.

(* ================================================================== *)
(** * Asynchronous handlers *)
(* ================================================================== *)

(** What a handler can throw, or a promise reject with. *)
Inductive Error :=
| ApiError        (* [ai.models.generateContent] rejected *)
| SyntaxError.    (* [JSON.parse] threw *)

Inductive Settled (A : Type) :=
| Fulfilled (v : A)
| Rejected (e : Error).
Arguments Rejected {A} e.

(** The two prompts sent to the backend, by the values interpolated
    into them. *)
Inductive Request :=
| WordsPrompt (level : VocabularyLevel) (count : nat)
| CheckPrompt (w : jsstring) (correctMeanings : list jsstring)
              (answer : jsstring).

(** Of the backend's response the code reads [response.text] only. *)
Record GenerateContentResponse := { text : option jsstring }.

(** An [async] function over component state [S]: it returns, throws,
    queues a state update ([setX(...)]), or suspends at
    [await ai.models.generateContent(...)] until the call settles. *)
Inductive Task (S A : Type) : Type :=
| Return (v : A)
| Throw (e : Error)
| SetState (f : S -> S) (k : Task S A)
| Await (req : Request) (k : Settled GenerateContentResponse -> Task S A).
Arguments Return {S A} v.
Arguments Throw {S A} e.

Fixpoint bind {S A B} (t : Task S A) (f : A -> Task S B) : Task S B :=
  match t with
  | Return v => f v
  | Throw e => Throw e
  | SetState g k => SetState g (bind k f)
  | Await req k => Await req (fun r => bind (k r) f)
  end.

(** [try { t } catch (error) { h error }]. *)
Fixpoint tryCatch {S A} (t : Task S A) (h : Error -> Task S A) : Task S A :=
  match t with
  | Return v => Return v
  | Throw e => h e
  | SetState g k => SetState g (tryCatch k h)
  | Await req k => Await req (fun r => tryCatch (k r) h)
  end.

(** [try { t } finally { fin }], for a [fin] that neither returns a
    value nor throws. *)
Fixpoint tryFinally {S A} (t : Task S A) (fin : S -> S) : Task S A :=
  match t with
  | Return v => SetState fin (Return v)
  | Throw e => SetState fin (Throw e)
  | SetState g k => SetState g (tryFinally k fin)
  | Await req k => Await req (fun r => tryFinally (k r) fin)
  end.

Definition set {S} (f : S -> S) : Task S unit := SetState f (Return tt).

Declare Scope task_scope.
Delimit Scope task_scope with task.
Notation "x <- t ;; k" := (bind t (fun x => k))
  (at level 100, t at next level, right associativity) : task_scope.
Notation "t ;; k" := (bind t (fun _ => k))
  (at level 100, right associativity) : task_scope.
Local Open Scope task_scope.

(** Running a handler to completion against a backend [env], from
    state [s]: the final state, how the handler settled, and the
    requests it sent, oldest first. *)
Fixpoint run {S A} (env : Request -> Settled GenerateContentResponse)
         (t : Task S A) (s : S) : S * Settled A * list Request :=
  match t with
  | Return v => (s, Fulfilled v, [])
  | Throw e => (s, Rejected e, [])
  | SetState f k => run env k (f s)
  | Await req k =>
      let '(s', r, log) := run env (k (env req)) s in (s', r, req :: log)
  end.

(** The synchronous part of a handler: it runs until it settles or
    suspends at its first [await]. *)
Inductive Status (S A : Type) :=
| Settles (r : Settled A)
| Suspends (req : Request) (k : Settled GenerateContentResponse -> Task S A).
Arguments Settles {S A} r.

Fixpoint sync {S A} (t : Task S A) (s : S) : S * Status S A :=
  match t with
  | Return v => (s, Settles (Fulfilled v))
  | Throw e => (s, Settles (Rejected e))
  | SetState f k => sync k (f s)
  | Await req k => (s, Suspends req k)
  end.

(** [await ai.models.generateContent(...)]: a rejection is thrown at
    the [await]. *)
Definition generateContent {S} (req : Request) : Task S GenerateContentResponse :=
  Await req (fun r =>
    match r with
    | Fulfilled response => Return response
    | Rejected e => Throw e
    end).

(** [!text] for [text : string | undefined]. *)
Definition noText (t : option jsstring) : bool :=
  match t with
  | None => true
  | Some s => negb (truthy s)
  end.

(* ================================================================== *)
(** * services/geminiService.ts *)
(* ================================================================== *)

Module geminiService.

(** The value [smartCheckAnswer] promises. *)
Record Verdict := {
  isCorrect : bool;
  explanation : jsstring
}.

(** [JSON.parse], at the two types the service casts its result to
    (the casts are trusted, as the type checker trusts them); [None]
    when it throws. The parser belongs to the runtime, not to the
    repository. A text that parses to a value of another shape ([null],
    an object without the two fields) is not represented; the [catch]
    block of [QuizCard.handleSubmit], which only such a value can reach,
    is therefore never entered in this model. *)
Class JSON := {
  JSON_parse_words : jsstring -> option (list WordItem);
  JSON_parse_verdict : jsstring -> option Verdict
}.

Definition parsed {S A} (r : option A) : Task S A :=
  match r with
  | Some v => Return v
  | None => Throw SyntaxError
  end.

(** U+65E0 U+6CD5 U+9A8C U+8BC1, the explanation of a response without
    text. *)
Definition cannot_verify : jsstring := [0x65E0; 0x6CD5; 0x9A8C; 0x8BC1]%N.

Section Service.
Context {J : JSON} {S : Type}.

Definition fetchWordBatch (level : VocabularyLevel) (count : nat)
  : Task S (list WordItem) :=
  tryCatch
    (response <- generateContent (WordsPrompt level count) ;;
     let text := text response in
     if noText text then Return []
     else parsed (JSON_parse_words (match text with Some t => t | None => [] end)))
    (fun error => (* console.error(...) *) Throw error).

Definition smartCheckAnswer (word : jsstring) (correctMeanings : list jsstring)
           (userAnswer : jsstring) : Task S Verdict :=
  tryCatch
    (response <- generateContent (CheckPrompt word correctMeanings userAnswer) ;;
     let text := text response in
     if noText text then
       Return {| isCorrect := false; explanation := cannot_verify |}
     else parsed (JSON_parse_verdict (match text with Some t => t | None => [] end)))
    (fun error =>
       (* console.error(...) *)
       let isStrictMatch :=
         existsb (fun m => includes userAnswer m || includes m userAnswer)
                 correctMeanings in
       Return {| isCorrect := isStrictMatch;
                 explanation := if isStrictMatch then lit "Local match"
                                else lit "API Error" |}).

End Service.
End geminiService.

(* ================================================================== *)
(** * components/QuizCard.tsx *)
(* ================================================================== *)

Module QuizCard.

(** The three [useState] cells of the card. The props ([wordData],
    [onNext], [isLast]) come from the parent at each render. *)
Record Hooks := {
  input : jsstring;
  isChecking : bool;
  result : option CheckResult
}.

Definition setInput (v : jsstring) (c : Hooks) : Hooks :=
  {| input := v; isChecking := isChecking c; result := result c |}.
Definition setIsChecking (v : bool) (c : Hooks) : Hooks :=
  {| input := input c; isChecking := v; result := result c |}.
Definition setResult (v : option CheckResult) (c : Hooks) : Hooks :=
  {| input := input c; isChecking := isChecking c; result := v |}.

(** [useState('')], [useState(false)], [useState(null)]; the effect on
    [wordData] writes the same values back when the word changes. *)
Definition mounted : Hooks :=
  {| input := []; isChecking := false; result := None |}.

Definition resetOnWordChange (c : Hooks) : Hooks :=
  setIsChecking false (setResult None (setInput [] c)).

Section Handlers.
Context {J : geminiService.JSON}.

(** The body of the handler's [try] block: the local tier, then the
    oracle. [input] is the card's text at the render the form was
    submitted from. *)
Definition verify (wordData : WordItem) (input : jsstring) : Task Hooks unit :=
  let normalizedInput := trim input in
  let localMatch :=
    existsb (fun m => includes m normalizedInput || includes normalizedInput m)
            (meanings wordData) in
  if localMatch then
    set (setResult (Some {| isCorrect := true; userAnswer := normalizedInput;
                            explanation := Some (lit "Correct!") |}))
  else
    aiResult <- geminiService.smartCheckAnswer
                  (word wordData) (meanings wordData) normalizedInput ;;
    set (setResult (Some {| isCorrect := geminiService.isCorrect aiResult;
                            userAnswer := normalizedInput;
                            explanation := Some (geminiService.explanation aiResult) |})).

Definition handleSubmit (wordData : WordItem) (input : jsstring) : Task Hooks unit :=
  (* e.preventDefault() *)
  if negb (truthy (trim input)) then Return tt
  else
    set (setIsChecking true) ;;
    tryFinally
      (tryCatch
         (verify wordData input)
         (fun error =>
            set (setResult (Some {| isCorrect := false; userAnswer := input;
                                    explanation :=
                                      Some (lit "Verification error. Try again.") |}))))
      (setIsChecking false).

End Handlers.

(** [handleContinue]: the argument it passes to [onNext], if it calls
    it at all. *)
Definition handleContinue (c : Hooks) : option bool :=
  match result c with
  | Some r => Some (isCorrect r)
  | None => None
  end.

(** What the card renders below the word. *)
Inductive Phase := InputPhase | ResultPhase.

Definition phase (c : Hooks) : Phase :=
  match result c with
  | None => InputPhase
  | Some _ => ResultPhase
  end.

(** The submit button: [disabled={!input.trim()}], [isLoading={isChecking}],
    and [Button] renders [disabled={disabled || isLoading}]. *)
Definition submitDisabled (c : Hooks) : bool :=
  negb (truthy (trim (input c))) || isChecking c.

End QuizCard.

(* ================================================================== *)
(** * App.tsx *)
(* ================================================================== *)

Module App.

Definition INITIAL_QUIZ_STATE : QuizState :=
  {| currentWordIndex := 0; words := []; score := 0; totalAnswered := 0;
     streak := 0; isFinished := false |}.

Record Hooks := {
  loadingState : LoadingState;
  selectedLevel : VocabularyLevel;
  quizState : QuizState;
  errorMsg : jsstring
}.

Definition initial : Hooks :=
  {| loadingState := IDLE; selectedLevel := CET6;
     quizState := INITIAL_QUIZ_STATE; errorMsg := [] |}.

Definition setLoadingState (v : LoadingState) (a : Hooks) : Hooks :=
  {| loadingState := v; selectedLevel := selectedLevel a;
     quizState := quizState a; errorMsg := errorMsg a |}.
Definition setSelectedLevel (v : VocabularyLevel) (a : Hooks) : Hooks :=
  {| loadingState := loadingState a; selectedLevel := v;
     quizState := quizState a; errorMsg := errorMsg a |}.
Definition setQuizState (f : QuizState -> QuizState) (a : Hooks) : Hooks :=
  {| loadingState := loadingState a; selectedLevel := selectedLevel a;
     quizState := f (quizState a); errorMsg := errorMsg a |}.
Definition setErrorMsg (v : jsstring) (a : Hooks) : Hooks :=
  {| loadingState := loadingState a; selectedLevel := selectedLevel a;
     quizState := quizState a; errorMsg := v |}.

Definition generation_failed : jsstring :=
  lit "Failed to generate vocabulary. Please check your connection or API key.".

Section Handlers.
Context {J : geminiService.JSON}.

Definition startGame (level : VocabularyLevel) : Task Hooks unit :=
  set (setLoadingState LOADING) ;;
  set (setSelectedLevel level) ;;
  set (setErrorMsg []) ;;
  tryCatch
    (words <- geminiService.fetchWordBatch level 5 ;;
     set (setQuizState (fun _ =>
            {| currentWordIndex := currentWordIndex INITIAL_QUIZ_STATE;
               words := words;
               score := score INITIAL_QUIZ_STATE;
               totalAnswered := totalAnswered INITIAL_QUIZ_STATE;
               streak := streak INITIAL_QUIZ_STATE;
               isFinished := isFinished INITIAL_QUIZ_STATE |})) ;;
     set (setLoadingState READY))
    (fun err =>
       (* console.error(err) *)
       set (setErrorMsg generation_failed) ;;
       set (setLoadingState ERROR)).

End Handlers.

(** The updater [handleNextWord] hands to [setQuizState]. The source
    compares against [words.length - 1], which is -1 for an empty
    batch, hence the comparison in [Z]. *)
Definition handleNextWord (wasCorrect : bool) (prev : QuizState) : QuizState :=
  let isLastWord :=
    (Z.of_nat (currentWordIndex prev) >=? Z.of_nat (List.length (words prev)) - 1)%Z in
  if isLastWord then
    {| currentWordIndex := currentWordIndex prev;
       words := words prev;
       score := if wasCorrect then score prev + 1 else score prev;
       totalAnswered := totalAnswered prev + 1;
       streak := if wasCorrect then streak prev + 1 else 0;
       isFinished := true |}
  else
    {| currentWordIndex := currentWordIndex prev + 1;
       words := words prev;
       score := if wasCorrect then score prev + 1 else score prev;
       totalAnswered := totalAnswered prev + 1;
       streak := if wasCorrect then streak prev + 1 else 0;
       isFinished := isFinished prev |}.

Definition resetGame (a : Hooks) : Hooks :=
  setQuizState (fun _ => INITIAL_QUIZ_STATE) (setLoadingState IDLE a).

(** Which of the three screens [<main>] shows. *)
Inductive Screen := Home | Game | Result.

Definition screen (a : Hooks) : Screen :=
  match loadingState a with
  | IDLE | LOADING | ERROR => Home
  | READY => if isFinished (quizState a) then Result else Game
  end.

(** [renderGame]: [quizState.words[quizState.currentWordIndex]], and no
    card when that is undefined. *)
Definition currentWord (q : QuizState) : option WordItem :=
  nth_error (words q) (currentWordIndex q).

Definition cardShown (a : Hooks) : option WordItem :=
  match screen a with
  | Game => currentWord (quizState a)
  | _ => None
  end.

(** The level buttons of the home screen:
    [disabled={loadingState === LoadingState.LOADING}]. *)
Definition levelButtonsEnabled (a : Hooks) : bool :=
  match loadingState a with
  | IDLE | ERROR => true
  | _ => false
  end.

End App.

(* ================================================================== *)
(** * The result screen *)
(* ================================================================== *)

Module Number.

(** A counter as the double it is in JavaScript (exact below 2^53). *)
Definition ofNat (n : nat) : float :=
  PrimFloat.of_uint63 (Uint63.of_Z (Z.of_nat n)).

(** [Math.round]: the integer nearest to [x], ties towards +infinity,
    computed on the exact value [m * 2^e] of the double. [None] stands
    for NaN and the infinities, which [Math.round] hands back. *)
Definition Math_round (x : float) : option Z :=
  match Prim2SF x with
  | S754_zero _ => Some 0%Z
  | S754_finite sign m e =>
      let v := if sign then Z.neg m else Z.pos m in
      Some (if (0 <=? e)%Z then (v * 2 ^ e)%Z
            else ((2 * v + 2 ^ (- e)) / 2 ^ (- e + 1))%Z)
  | S754_infinity _ | S754_nan => None
  end.

(** The nearest integer to the rational [num / den], ties upwards, for
    [den > 0]. *)
Definition round_ratio (num den : Z) : Z := ((2 * num + den) / (2 * den))%Z.

End Number.

(** [renderResult]:
    [Math.round((quizState.score / quizState.words.length) * 100)]. *)
Definition accuracyPercent (q : QuizState) : option Z :=
  Number.Math_round
    (PrimFloat.mul
       (PrimFloat.div (Number.ofNat (score q))
                      (Number.ofNat (List.length (words q))))
       100%float).

(* ================================================================== *)
(** * The card as a component instance *)
(* ================================================================== *)

(** A mounted [QuizCard]: its current props, its hooks, and the
    [handleSubmit] calls still suspended at their [await]. Each of these
    remembers the word it was submitted for; the code keeps no such
    record, it is here to state what a late result is applied to. *)
Module Card.

Record Pending := {
  submitted : WordItem;
  resume : Settled GenerateContentResponse -> Task QuizCard.Hooks unit
}.

Record Instance := {
  wordData : WordItem;
  hooks : QuizCard.Hooks;
  pending : list Pending
}.

Definition mount (w : WordItem) : Instance :=
  {| wordData := w; hooks := QuizCard.mounted; pending := [] |}.

(** The parent renders the card with another word: the effect on
    [wordData] resets the hooks. Suspended handlers stay suspended. *)
Definition newWord (w : WordItem) (i : Instance) : Instance :=
  {| wordData := w; hooks := QuizCard.resetOnWordChange (hooks i);
     pending := pending i |}.

(** Typing into the input, which the input phase renders. *)
Definition type (s : jsstring) (i : Instance) : option Instance :=
  match QuizCard.phase (hooks i) with
  | QuizCard.InputPhase =>
      Some {| wordData := wordData i; hooks := QuizCard.setInput s (hooks i);
              pending := pending i |}
  | QuizCard.ResultPhase => None
  end.

(** A handler ran its synchronous part on the hooks. *)
Definition ran (i : Instance) (w : WordItem) (rest : list Pending)
           (r : QuizCard.Hooks * Status QuizCard.Hooks unit) : Instance :=
  match r with
  | (h, Settles _) => {| wordData := wordData i; hooks := h; pending := rest |}
  | (h, Suspends _ k) =>
      {| wordData := wordData i; hooks := h;
         pending := rest ++ [{| submitted := w; resume := k |}] |}
  end.

Section Events.
Context {J : geminiService.JSON}.

(** Submitting the form: possible in the input phase while the button
    is enabled (a disabled default button blocks implicit submission
    too). The handler closes over this render's [wordData] and [input]. *)
Definition submit (i : Instance) : option Instance :=
  match QuizCard.phase (hooks i), QuizCard.submitDisabled (hooks i) with
  | QuizCard.InputPhase, false =>
      Some (ran i (wordData i) (pending i)
                (sync (QuizCard.handleSubmit (wordData i) (QuizCard.input (hooks i)))
                      (hooks i)))
  | _, _ => None
  end.

End Events.

Fixpoint take_nth {A} (n : nat) (l : list A) {struct l} : option (A * list A) :=
  match l, n with
  | [], _ => None
  | x :: l', O => Some (x, l')
  | x :: l', S n' =>
      match take_nth n' l' with
      | Some (y, rest) => Some (y, x :: rest)
      | None => None
      end
  end.

(** The backend call of the [n]-th suspended handler settles with [r]:
    the handler resumes on the hooks as they are now. *)
Definition settle (n : nat) (r : Settled GenerateContentResponse)
           (i : Instance) : option Instance :=
  match take_nth n (pending i) with
  | Some (p, rest) => Some (ran i (submitted p) rest (sync (resume p r) (hooks i)))
  | None => None
  end.

(** The Continue button of the result phase: what reaches [onNext]. *)
Definition continue (i : Instance) : option bool :=
  QuizCard.handleContinue (hooks i).

End Card.

(* ================================================================== *)
(** * The application as an event-driven machine *)
(* ================================================================== *)

Module UI.

Record State := {
  app : App.Hooks;
  card : option Card.Instance;
  (** [startGame] calls suspended at their [await] *)
  fetches : list (Settled GenerateContentResponse -> Task App.Hooks unit)
}.

Definition initial : State :=
  {| app := App.initial; card := None; fetches := [] |}.

Inductive Event :=
| ClickLevel (level : VocabularyLevel)
| FetchSettles (n : nat) (r : Settled GenerateContentResponse)
| TypeAnswer (s : jsstring)
| SubmitAnswer
| CheckSettles (n : nat) (r : Settled GenerateContentResponse)
| ClickContinue
| ClickBackToMenu
| ClickPlayAgain.

(** Re-rendering [<main>]: the card is unmounted when [renderGame] does
    not produce it, mounted when it newly does, and otherwise kept,
    with its effect run if [wordData] is another object
    ([wordChanged]: the index moved or the array was replaced). *)
Definition render (wordChanged : bool) (a : App.Hooks)
           (c : option Card.Instance) : option Card.Instance :=
  match App.cardShown a, c with
  | None, _ => None
  | Some w, None => Some (Card.mount w)
  | Some w, Some i => Some (if wordChanged then Card.newWord w i else i)
  end.

Definition started (u : State)
           (r : App.Hooks * Status App.Hooks unit) : State :=
  match r with
  | (a, Settles _) =>
      {| app := a; card := render true a (card u); fetches := fetches u |}
  | (a, Suspends _ k) =>
      {| app := a; card := render true a (card u); fetches := fetches u ++ [k] |}
  end.

Definition withCard (u : State) (c : option Card.Instance) : option State :=
  match c with
  | Some i => Some {| app := app u; card := Some i; fetches := fetches u |}
  | None => None
  end.

Section Step.
Context {J : geminiService.JSON}.

Definition step (e : Event) (u : State) : option State :=
  match e with
  | ClickLevel level =>
      match App.screen (app u), App.levelButtonsEnabled (app u) with
      | App.Home, true => Some (started u (sync (App.startGame level) (app u)))
      | _, _ => None
      end
  | ClickPlayAgain =>
      match App.screen (app u) with
      | App.Result =>
          Some (started u (sync (App.startGame (App.selectedLevel (app u))) (app u)))
      | _ => None
      end
  | ClickBackToMenu =>
      match App.screen (app u) with
      | App.Result =>
          let a := App.resetGame (app u) in
          Some {| app := a; card := render false a (card u); fetches := fetches u |}
      | _ => None
      end
  | FetchSettles n r =>
      match Card.take_nth n (fetches u) with
      | Some (k, rest) =>
          Some (started {| app := app u; card := card u; fetches := rest |}
                        (sync (k r) (app u)))
      | None => None
      end
  | TypeAnswer s =>
      match card u with
      | Some i => withCard u (Card.type s i)
      | None => None
      end
  | SubmitAnswer =>
      match card u with
      | Some i => withCard u (Card.submit i)
      | None => None
      end
  | CheckSettles n r =>
      match card u with
      | Some i => withCard u (Card.settle n r i)
      | None => None
      end
  | ClickContinue =>
      match card u with
      | Some i =>
          match Card.continue i with
          | Some wasCorrect =>
              let a := App.setQuizState (App.handleNextWord wasCorrect) (app u) in
              Some {| app := a; card := render true a (card u); fetches := fetches u |}
          | None => None
          end
      | None => None
      end
  end.

Fixpoint steps (es : list Event) (u : State) : option State :=
  match es with
  | [] => Some u
  | e :: es' =>
      match step e u with
      | Some u' => steps es' u'
      | None => None
      end
  end.

Definition reachable (u : State) : Prop :=
  exists es, steps es initial = Some u.

End Step.

(** A suspended check is fresh when it was submitted for the word the
    card now shows and the card is still waiting for it: no result on
    display (hence no Continue button) and the spinner on. *)
Definition fresh (i : Card.Instance) (p : Card.Pending) : Prop :=
  Card.submitted p = Card.wordData i /\
  QuizCard.result (Card.hooks i) = None /\
  QuizCard.isChecking (Card.hooks i) = true.

Definition no_stale_check (u : State) : Prop :=
  match card u with
  | None => True
  | Some i =>
      App.cardShown (app u) = Some (Card.wordData i) /\
      match Card.pending i with
      | [] => True
      | [p] => fresh i p
      | _ :: _ :: _ => False
      end
  end.

End UI.

(* ================================================================== *)
(** * The session, as the claims speak of it *)
(* ================================================================== *)

Module Session.

(** The quiz state [startGame] installs for a batch. *)
Definition fresh (batch : list WordItem) : QuizState :=
  {| currentWordIndex := 0; words := batch; score := 0; totalAnswered := 0;
     streak := 0; isFinished := false |}.

(** [handleNextWord] once per recorded outcome, oldest first. *)
Fixpoint play (outcomes : list bool) (q : QuizState) : QuizState :=
  match outcomes with
  | [] => q
  | b :: rest => play rest (App.handleNextWord b q)
  end.

(** Continue can be clicked only on a card, and [App] renders the card
    only while the quiz is not finished and the current word exists. *)
Definition cardOnScreen (q : QuizState) : bool :=
  negb (isFinished q) &&
  match App.currentWord q with Some _ => true | None => false end.

Inductive reachable (batch : list WordItem) : QuizState -> Prop :=
| reach_fresh : reachable batch (fresh batch)
| reach_next q b :
    reachable batch q -> cardOnScreen q = true ->
    reachable batch (App.handleNextWord b q).

(** The number of correct outcomes at the head of a list, and at the
    end of a history. *)
Fixpoint leading_run (l : list bool) : nat :=
  match l with
  | true :: l' => S (leading_run l')
  | _ => 0
  end.

Definition trailing_run (outcomes : list bool) : nat :=
  leading_run (rev outcomes).

(** The bidirectional-containment heuristic of the specification. *)
Definition containment (accepted : list jsstring) (answer : jsstring) : bool :=
  existsb (fun m => includes m answer || includes answer m) accepted.

Section Oracle.
Context {J : geminiService.JSON}.

(** The oracle fails: the call rejects or its text does not parse. *)
Definition oracle_unusable (r : Settled GenerateContentResponse) : bool :=
  match r with
  | Rejected _ => true
  | Fulfilled response =>
      match text response with
      | Some t =>
          truthy t &&
          match geminiService.JSON_parse_verdict t with
          | None => true
          | Some _ => false
          end
      | None => false
      end
  end.

(** The backend answers with nothing: a response without text. *)
Definition silent (r : Settled GenerateContentResponse) : bool :=
  match r with
  | Rejected _ => false
  | Fulfilled response => noText (text response)
  end.

End Oracle.
End Session.

(* ================================================================== *)
(** * Sample data *)
(* ================================================================== *)

Module Sample.

(** JSON texts, written out the way [JSON.stringify] prints them (the
    sample strings need no escapes). *)
Definition str (s : jsstring) : jsstring := [34%N] ++ s ++ [34%N].

Definition field (name : string) (v : jsstring) : jsstring :=
  str (lit name) ++ lit ":" ++ v.

Fixpoint commas (l : list jsstring) : jsstring :=
  match l with
  | [] => []
  | [x] => x
  | x :: l' => x ++ lit "," ++ commas l'
  end.

Definition array (l : list jsstring) : jsstring :=
  lit "[" ++ commas l ++ lit "]".

Definition object (l : list jsstring) : jsstring :=
  lit "{" ++ commas l ++ lit "}".

Definition stringify_words (ws : list WordItem) : jsstring :=
  array (map (fun w =>
    object [field "word" (str (word w));
            field "phonetic" (str (phonetic w));
            field "meanings" (array (map str (meanings w)));
            field "example" (str (example w));
            field "exampleTranslation" (str (exampleTranslation w))]) ws).

(** The text of an oracle verdict that accepts the answer. *)
Definition verdict_text : jsstring :=
  object [field "isCorrect" (lit "true"); field "explanation" (str (lit "ok"))].

Definition pingguo : jsstring := [0x82F9; 0x679C]%N.           (* apple *)
Definition yizhong_shuiguo : jsstring :=
  [0x4E00; 0x79CD; 0x6C34; 0x679C]%N.                           (* a kind of fruit *)
Definition shuiguo : jsstring := [0x6C34; 0x679C]%N.            (* fruit *)
Definition juzi : jsstring := [0x6A58; 0x5B50]%N.               (* tangerine *)
Definition guoshi : jsstring := [0x679C; 0x5B9E]%N.             (* fruit, as a crop *)

Definition apple : WordItem :=
  {| word := lit "apple"; phonetic := lit "/apl/";
     meanings := [pingguo; yizhong_shuiguo];
     example := lit "An apple a day."; exampleTranslation := pingguo |}.

Definition fruit : WordItem :=
  {| word := lit "fruit"; phonetic := lit "/fru:t/";
     meanings := [shuiguo];
     example := lit "Fresh fruit."; exampleTranslation := shuiguo |}.

Definition orange : WordItem :=
  {| word := lit "orange"; phonetic := lit "/orindz/";
     meanings := [juzi];
     example := lit "An orange."; exampleTranslation := juzi |}.

(** A word one of whose accepted meanings is the empty string. *)
Definition blank : WordItem :=
  {| word := lit "void"; phonetic := lit "/void/";
     meanings := [pingguo; []];
     example := lit "A void."; exampleTranslation := pingguo |}.

Definition batch_text : jsstring := stringify_words [fruit; orange].

Fixpoint eqb (s t : jsstring) : bool :=
  match s, t with
  | [], [] => true
  | c :: s', d :: t' => N.eqb c d && eqb s' t'
  | _, _ => false
  end.

(** [JSON.parse] on the texts the examples use: the empty array, one
    two-word batch and one verdict. Every other text counts as
    unparseable here. *)
#[local] Instance runtime : geminiService.JSON := {|
  geminiService.JSON_parse_words t :=
    if eqb t (stringify_words []) then Some []
    else if eqb t batch_text then Some [fruit; orange]
    else None;
  geminiService.JSON_parse_verdict t :=
    if eqb t verdict_text
    then Some {| geminiService.isCorrect := true;
                 geminiService.explanation := lit "ok" |}
    else None
|}.

(** Backends: one that rejects every call, one whose responses carry
    no text, one that answers with the sample texts. *)
Definition offline (_ : Request) : Settled GenerateContentResponse :=
  Rejected ApiError.

Definition mute (_ : Request) : Settled GenerateContentResponse :=
  Fulfilled {| text := None |}.

Definition helpful (req : Request) : Settled GenerateContentResponse :=
  match req with
  | WordsPrompt _ _ => Fulfilled {| text := Some batch_text |}
  | CheckPrompt _ _ _ => Fulfilled {| text := Some verdict_text |}
  end.

Definition spaces : jsstring := [0x20; 0x3000; 0x09; 0x20]%N.

End Sample.

Unset Implicit Arguments.

(* ================================================================== *)
(** * Notions used in the statements *)
(* ================================================================== *)

Section Notions.
Context {J : geminiService.JSON}.

(** What the card shows after a local match. *)
Definition accepted_locally (input : jsstring) (c : QuizCard.Hooks) : QuizCard.Hooks :=
  {| QuizCard.input := QuizCard.input c;
     QuizCard.isChecking := false;
     QuizCard.result :=
       Some {| isCorrect := true; userAnswer := trim input;
               explanation := Some (lit "Correct!") |} |}.

(** What [smartCheckAnswer] resolves to from its [catch] block. *)
Definition fallback_verdict (accepted : list jsstring) (answer : jsstring)
  : geminiService.Verdict :=
  {| geminiService.isCorrect := Session.containment accepted answer;
     geminiService.explanation :=
       if Session.containment accepted answer then lit "Local match"
       else lit "API Error" |}.

(** ... and from its test of [response.text]. *)
Definition silent_verdict : geminiService.Verdict :=
  {| geminiService.isCorrect := false;
     geminiService.explanation := geminiService.cannot_verify |}.

(** How [fetchWordBatch] settles against a backend. *)
Definition fetched (env : Request -> Settled GenerateContentResponse)
           (level : VocabularyLevel) : Settled (list WordItem) :=
  snd (fst (run env (geminiService.fetchWordBatch level 5) tt)).

(** What holds of every state of a session. *)
Record session_invariant (batch : list WordItem) (q : QuizState) : Prop := {
  inv_words : words q = batch;
  inv_score : score q <= totalAnswered q;
  inv_total : totalAnswered q <= List.length batch;
  inv_running : isFinished q = false ->
                currentWordIndex q = totalAnswered q /\
                (batch <> [] -> totalAnswered q < List.length batch);
  inv_finished : isFinished q = true ->
                 currentWordIndex q + 1 = List.length batch /\
                 totalAnswered q = List.length batch
}.

(** Two words, both answered: the first correctly, the second not. *)
Definition both_answered : QuizState :=
  App.handleNextWord false
    (App.handleNextWord true (Session.fresh [Sample.fruit; Sample.orange])).

(** The percentage as a function of the two numbers it is computed
    from. *)
Definition percent (correct total : nat) : option Z :=
  Number.Math_round
    (PrimFloat.mul (PrimFloat.div (Number.ofNat correct) (Number.ofNat total))
                   100%float).

Definition percent_exact (correct total : nat) : bool :=
  match percent correct total with
  | Some p => Z.eqb p (Number.round_ratio (100 * Z.of_nat correct) (Z.of_nat total))
  | None => false
  end.

Definition exact_below (bound : nat) : bool :=
  forallb (fun total =>
             forallb (fun correct => percent_exact correct total)
                     (seq 0 (S total)))
          (seq 1 (bound - 1)).

(** A continuation is one [startGame] (one [handleSubmit]) left behind
    at its [await]. *)
Definition from_startGame
           (k : Settled GenerateContentResponse -> Task App.Hooks unit) : Prop :=
  exists level a0 req, snd (sync (App.startGame level) a0) = Suspends req k.

Definition from_handleSubmit (w : WordItem)
           (k : Settled GenerateContentResponse -> Task QuizCard.Hooks unit) : Prop :=
  exists input c0 req, snd (sync (QuizCard.handleSubmit w input) c0) = Suspends req k.

Definition fetches_ok (u : UI.State) : Prop :=
  match UI.fetches u with
  | [] => True
  | [k] => App.loadingState (UI.app u) = LOADING /\ from_startGame k
  | _ :: _ :: _ => False
  end.

Definition pending_ok (i : Card.Instance) : Prop :=
  match Card.pending i with
  | [] => True
  | [p] => UI.fresh i p /\ from_handleSubmit (Card.wordData i) (Card.resume p)
  | _ :: _ :: _ => False
  end.

Definition card_ok (u : UI.State) : Prop :=
  match UI.card u with
  | None => True
  | Some i => App.cardShown (UI.app u) = Some (Card.wordData i) /\ pending_ok i
  end.

(** A session under way: the batch has arrived, an answer that matches
    nothing locally has been typed and submitted, and the oracle has
    not answered yet. *)
Definition waiting_for_the_oracle : UI.State :=
  match UI.steps (J := Sample.runtime)
          [UI.ClickLevel CET6;
           UI.FetchSettles 0 (Sample.helpful (WordsPrompt CET6 5));
           UI.TypeAnswer Sample.guoshi;
           UI.SubmitAnswer]
          UI.initial with
  | Some u => u
  | None => UI.initial
  end.

(** The card on its own: an answer for one word is submitted, the
    parent renders the card with the next word while the oracle is still
    out, and then the oracle answers. *)
Definition late_verdict : option Card.Instance :=
  match Card.type Sample.guoshi (Card.mount Sample.fruit) with
  | Some typed =>
      match Card.submit (J := Sample.runtime) typed with
      | Some submitted =>
          Card.settle 0
            (Sample.helpful
               (CheckPrompt (word Sample.fruit) (meanings Sample.fruit) Sample.guoshi))
            (Card.newWord Sample.orange submitted)
      | None => None
      end
  | None => None
  end.

End Notions.

(* ================================================================== *)
(** * What [renderGame] passes down, and notions for the interface *)
(* ================================================================== *)

(** [isLast={quizState.currentWordIndex === quizState.words.length - 1}],
    which labels the card's button Finish Quiz instead of Next Word. *)
Definition isLast (q : QuizState) : bool :=
  (Z.of_nat (currentWordIndex q) =? Z.of_nat (List.length (words q)) - 1)%Z.

(** The counter above the card: Word [currentWordIndex + 1] of
    [words.length]. *)
Definition wordNumber (q : QuizState) : nat := currentWordIndex q + 1.

(** What the interface keeps true besides having no stale check. *)
Record ui_ok (u : UI.State) : Prop := {
  ok_loading : App.loadingState (UI.app u) = LOADING <-> UI.fetches u <> [];
  ok_error : App.errorMsg (UI.app u) =
             match App.loadingState (UI.app u) with
             | ERROR => App.generation_failed
             | _ => []
             end;
  ok_session : App.loadingState (UI.app u) = READY ->
               Session.reachable (words (App.quizState (UI.app u)))
                                 (App.quizState (UI.app u));
  ok_mounted : UI.card u = None -> App.cardShown (UI.app u) = None;
  ok_spinner : forall i, UI.card u = Some i ->
               (QuizCard.isChecking (Card.hooks i) = true <-> Card.pending i <> []) /\
               (QuizCard.result (Card.hooks i) <> None ->
                QuizCard.isChecking (Card.hooks i) = false)
}.

(** A word that came without meanings. *)
Definition bare : WordItem :=
  {| word := lit "bare"; phonetic := lit "/bea/"; meanings := [];
     example := lit "Bare."; exampleTranslation := [] |}.

(** States of the sample run: the level was just chosen; the fetch
    failed; the first answer was accepted locally; both words were
    answered. *)
Definition after (es : list UI.Event) : UI.State :=
  match UI.steps (J := Sample.runtime) es UI.initial with
  | Some u => u
  | None => UI.initial
  end.

Definition level_chosen : list UI.Event := [UI.ClickLevel KAOYAN].

Definition fetch_failed : list UI.Event :=
  [UI.ClickLevel KAOYAN; UI.FetchSettles 0 (Rejected ApiError)].

Definition first_answered : list UI.Event :=
  [UI.ClickLevel CET6;
   UI.FetchSettles 0 (Sample.helpful (WordsPrompt CET6 5));
   UI.TypeAnswer Sample.shuiguo;
   UI.SubmitAnswer].

Definition quiz_done : list UI.Event :=
  first_answered ++
  [UI.ClickContinue; UI.TypeAnswer Sample.juzi; UI.SubmitAnswer; UI.ClickContinue].

Definition batch_arrived : list UI.Event :=
  [UI.ClickLevel CET6; UI.FetchSettles 0 (Sample.helpful (WordsPrompt CET6 5))].

(** Whether the card of a state shows a result. *)
Definition showsResult (u : UI.State) : bool :=
  match UI.card u with
  | Some i =>
      match QuizCard.result (Card.hooks i) with
      | Some _ => true
      | None => false
      end
  | None => false
  end.

(* ================================================================== *)
(** * Strings: [includes] is the substring relation *)
(* ================================================================== *)

Lemma startsWith_spec (s t : jsstring) :
  startsWith s t = true <-> exists post, s = t ++ post.
Proof.
  revert s; induction t as [|c t IH]; intros s; simpl.
  - split; [intros _; now exists s | reflexivity].
  - destruct s as [|d s].
    + split; [discriminate | intros [post H]; discriminate].
    + rewrite andb_true_iff, N.eqb_eq, IH. split.
      * intros [-> [post ->]]. now exists post.
      * intros [post H]. injection H as -> ->. split; [reflexivity | now exists post].
Qed.

Lemma includes_spec (s t : jsstring) :
  includes s t = true <-> substring_of t s.
Proof.
  unfold substring_of. induction s as [|d s IH].
  - simpl. rewrite orb_false_r, startsWith_spec. split.
    + intros [post H]. now exists [], post.
    + intros [pre [post H]]. destruct pre; simpl in H.
      * now exists post.
      * discriminate.
  - cbn [includes]. rewrite orb_true_iff, startsWith_spec, IH. split.
    + intros [[post H] | [pre [post H]]].
      * now exists [], post.
      * exists (d :: pre), post. now rewrite H.
    + intros [pre [post H]]. destruct pre as [|e pre]; simpl in H.
      * left. now exists post.
      * right. injection H as _ H. now exists pre, post.
Qed.

Lemma includes_empty (s : jsstring) : includes s [] = true.
Proof. destruct s; reflexivity. Qed.

Lemma truthy_nonempty (s : jsstring) : truthy s = true <-> s <> [].
Proof. destruct s; simpl; split; congruence. Qed.

(** The local tier of [QuizCard.verify] is the containment heuristic. *)
Lemma containment_spec (accepted : list jsstring) (answer : jsstring) :
  Session.containment accepted answer = true <->
  exists m, In m accepted /\ (substring_of answer m \/ substring_of m answer).
Proof.
  unfold Session.containment. rewrite existsb_exists.
  split; intros [m [Hin H]]; exists m; split; trivial.
  - rewrite orb_true_iff, !includes_spec in H. exact H.
  - rewrite orb_true_iff, !includes_spec. exact H.
Qed.

(** The fallback of [smartCheckAnswer] writes the two tests in the
    other order. *)
Lemma fallback_is_containment (accepted : list jsstring) (answer : jsstring) :
  existsb (fun m => includes answer m || includes m answer) accepted =
  Session.containment accepted answer.
Proof.
  unfold Session.containment. induction accepted as [|m l IH]; simpl.
  - reflexivity.
  - now rewrite IH, (orb_comm (includes answer m)).
Qed.

(* ================================================================== *)
(** * The verification protocol *)
(* ================================================================== *)

Section Verification.
Context {J : geminiService.JSON}.

Lemma verify_local (wordData : WordItem) (input : jsstring) :
  Session.containment (meanings wordData) (trim input) = true ->
  QuizCard.verify wordData input =
  set (QuizCard.setResult
         (Some {| isCorrect := true; userAnswer := trim input;
                  explanation := Some (lit "Correct!") |})).
Proof.
  intros H. unfold QuizCard.verify, Session.containment in *. now rewrite H.
Qed.

Lemma handleSubmit_local (wordData : WordItem) (input : jsstring)
      env (c : QuizCard.Hooks) :
  truthy (trim input) = true ->
  Session.containment (meanings wordData) (trim input) = true ->
  run env (QuizCard.handleSubmit wordData input) c =
  (accepted_locally input c, Fulfilled tt, []).
Proof.
  intros Ht Hm. unfold QuizCard.handleSubmit.
  rewrite Ht, (verify_local _ _ Hm). reflexivity.
Qed.

(** C3. Whenever the trimmed answer is a substring of an accepted
    meaning, or contains one, the verification step records
    [isCorrect: true] and sends nothing to the oracle, whatever the
    backend would have answered; and so does the whole submit handler
    for every answer it processes (one that is not blank). *)
Theorem local_match_is_correct_without_oracle
        (wordData : WordItem) (input : jsstring)
        (env : Request -> Settled GenerateContentResponse) (c : QuizCard.Hooks) :
  (exists m, In m (meanings wordData) /\
             (substring_of (trim input) m \/ substring_of m (trim input))) ->
  (exists c', run env (QuizCard.verify wordData input) c = (c', Fulfilled tt, []) /\
              option_map isCorrect (QuizCard.result c') = Some true) /\
  (trim input <> [] ->
   exists c', run env (QuizCard.handleSubmit wordData input) c = (c', Fulfilled tt, []) /\
              option_map isCorrect (QuizCard.result c') = Some true).
Proof.
  intros H. apply containment_spec in H. split.
  - rewrite (verify_local _ _ H). eexists. split; reflexivity.
  - intros Hne. apply truthy_nonempty in Hne.
    rewrite (handleSubmit_local _ _ env c Hne H). eexists. split; reflexivity.
Qed.

(** C9. A blank answer is turned away by the guard at the top of the
    handler: the handler is the empty task, so it updates no hook, runs
    neither tier and sends nothing; and the form does not even offer
    the submission, its button being disabled. *)
Theorem blank_answer_is_rejected
        (wordData : WordItem) (input : jsstring)
        (env : Request -> Settled GenerateContentResponse) (c : QuizCard.Hooks) :
  trim input = [] ->
  QuizCard.handleSubmit wordData input = Return tt /\
  run env (QuizCard.handleSubmit wordData input) c = (c, Fulfilled tt, []) /\
  forall i, QuizCard.input (Card.hooks i) = input -> Card.submit i = None.
Proof.
  intros H. unfold QuizCard.handleSubmit. rewrite H. simpl.
  repeat split.
  intros i Hi. unfold Card.submit, QuizCard.submitDisabled.
  rewrite Hi, H. simpl. now destruct (QuizCard.phase (Card.hooks i)).
Qed.

(** C10. With the empty string among the accepted meanings, every
    answer that is not blank matches locally (the empty string occurs
    in it), so the handler records [isCorrect: true] and the oracle is
    not consulted. *)
Theorem empty_meaning_accepts_everything
        (wordData : WordItem) (input : jsstring)
        (env : Request -> Settled GenerateContentResponse) (c : QuizCard.Hooks) :
  In [] (meanings wordData) ->
  trim input <> [] ->
  Session.containment (meanings wordData) (trim input) = true /\
  run env (QuizCard.handleSubmit wordData input) c =
    (accepted_locally input c, Fulfilled tt, []).
Proof.
  intros Hin Hne.
  assert (Hm : Session.containment (meanings wordData) (trim input) = true).
  { unfold Session.containment. apply existsb_exists. exists []. split; trivial.
    now rewrite includes_empty, orb_true_r. }
  split; trivial.
  apply handleSubmit_local; trivial. now apply truthy_nonempty.
Qed.

End Verification.

Lemma local_match_witness :
  (exists c', run Sample.offline (QuizCard.verify (J := Sample.runtime) Sample.apple Sample.shuiguo)
                  QuizCard.mounted = (c', Fulfilled tt, []) /\
              option_map isCorrect (QuizCard.result c') = Some true) /\
  (trim Sample.shuiguo <> [] ->
   exists c', run Sample.offline (QuizCard.handleSubmit (J := Sample.runtime) Sample.apple Sample.shuiguo)
                  QuizCard.mounted = (c', Fulfilled tt, []) /\
              option_map isCorrect (QuizCard.result c') = Some true).
Proof.
  apply (local_match_is_correct_without_oracle (J := Sample.runtime)
           Sample.apple Sample.shuiguo Sample.offline QuizCard.mounted).
  exists Sample.yizhong_shuiguo. split.
  - simpl. right. left. reflexivity.
  - left. exists [0x4E00; 0x79CD]%N, []. reflexivity.
Defined.

Lemma blank_answer_witness :
  QuizCard.handleSubmit (J := Sample.runtime) Sample.apple Sample.spaces = Return tt /\
  run Sample.helpful (QuizCard.handleSubmit (J := Sample.runtime) Sample.apple Sample.spaces)
      (QuizCard.setInput Sample.spaces QuizCard.mounted) =
    (QuizCard.setInput Sample.spaces QuizCard.mounted, Fulfilled tt, []) /\
  forall i, QuizCard.input (Card.hooks i) = Sample.spaces -> Card.submit (J := Sample.runtime) i = None.
Proof.
  apply (blank_answer_is_rejected (J := Sample.runtime) Sample.apple Sample.spaces Sample.helpful).
  reflexivity.
Defined.

Lemma empty_meaning_witness :
  Session.containment (meanings Sample.blank) (trim Sample.juzi) = true /\
  run Sample.helpful (QuizCard.handleSubmit (J := Sample.runtime) Sample.blank Sample.juzi) QuizCard.mounted =
    (accepted_locally Sample.juzi QuizCard.mounted, Fulfilled tt, []).
Proof.
  apply (empty_meaning_accepts_everything (J := Sample.runtime)
           Sample.blank Sample.juzi Sample.helpful QuizCard.mounted).
  - simpl. right. left. reflexivity.
  - discriminate.
Defined.

(* ================================================================== *)
(** * When the oracle fails *)
(* ================================================================== *)

Section OracleFailure.
Context {J : geminiService.JSON}.

Lemma smartCheckAnswer_unusable (S : Type) w accepted answer env (s : S) :
  Session.oracle_unusable (env (CheckPrompt w accepted answer)) = true ->
  run env (geminiService.smartCheckAnswer w accepted answer) s =
  (s, Fulfilled (fallback_verdict accepted answer), [CheckPrompt w accepted answer]).
Proof.
  intros H. unfold geminiService.smartCheckAnswer, fallback_verdict.
  rewrite <- fallback_is_containment. cbn.
  destruct (env (CheckPrompt w accepted answer)) as [[[t|]]|e]; cbn in *;
    try discriminate; try reflexivity.
  destruct t as [|c t]; cbn in *; [discriminate|].
  destruct (geminiService.JSON_parse_verdict (c :: t)); [discriminate | reflexivity].
Qed.

Lemma smartCheckAnswer_silent (S : Type) w accepted answer env (s : S) :
  Session.silent (env (CheckPrompt w accepted answer)) = true ->
  run env (geminiService.smartCheckAnswer w accepted answer) s =
  (s, Fulfilled silent_verdict, [CheckPrompt w accepted answer]).
Proof.
  intros H. unfold geminiService.smartCheckAnswer. cbn.
  destruct (env (CheckPrompt w accepted answer)) as [[[t|]]|e]; cbn in *;
    try discriminate; try reflexivity.
  destruct t; [reflexivity | discriminate].
Qed.

(** Running [x <- t ;; f x] when [t] settles with a value. *)
Lemma run_bind_fulfilled (S A B : Type) env (t : Task S A) (f : A -> Task S B)
      (s s1 : S) (v : A) log :
  run env t s = (s1, Fulfilled v, log) ->
  run env (bind t f) s =
  let '(s', r, log') := run env (f v) s1 in (s', r, log ++ log').
Proof.
  revert s log. induction t as [v'|e|g k IH|req k IH]; intros s log H; cbn in *.
  - injection H as -> -> <-. now destruct (run env (f v) s1) as [[s' r] log'].
  - discriminate.
  - now apply IH.
  - destruct (run env (k (env req)) s) as [[s2 r2] log2] eqn:E.
    injection H as -> -> <-.
    rewrite (IH _ s log2 E).
    now destruct (run env (f v) s1) as [[s' r] log'].
Qed.

Lemma run_tryCatch_fulfilled (S A : Type) env (t : Task S A) h
      (s s1 : S) (v : A) log :
  run env t s = (s1, Fulfilled v, log) ->
  run env (tryCatch t h) s = (s1, Fulfilled v, log).
Proof.
  revert s log. induction t as [v'|e|g k IH|req k IH]; intros s log H; cbn in *.
  - exact H.
  - discriminate.
  - now apply IH.
  - destruct (run env (k (env req)) s) as [[s2 r2] log2] eqn:E.
    injection H as -> -> <-. now rewrite (IH _ s log2 E).
Qed.

Lemma run_tryFinally_fulfilled (S A : Type) env (t : Task S A) fin
      (s s1 : S) (v : A) log :
  run env t s = (s1, Fulfilled v, log) ->
  run env (tryFinally t fin) s = (fin s1, Fulfilled v, log).
Proof.
  revert s log. induction t as [v'|e|g k IH|req k IH]; intros s log H; cbn in *.
  - now injection H as -> -> <-.
  - discriminate.
  - now apply IH.
  - destruct (run env (k (env req)) s) as [[s2 r2] log2] eqn:E.
    injection H as -> -> <-. now rewrite (IH _ s log2 E).
Qed.

(** The oracle tier: whatever verdict the service resolves to is put
    on the card. *)
Lemma verify_oracle (wordData : WordItem) (input : jsstring) env
      (c : QuizCard.Hooks) (v : geminiService.Verdict) log :
  Session.containment (meanings wordData) (trim input) = false ->
  (forall s : QuizCard.Hooks,
     run env (geminiService.smartCheckAnswer
                (word wordData) (meanings wordData) (trim input)) s =
     (s, Fulfilled v, log)) ->
  run env (QuizCard.verify wordData input) c =
  (QuizCard.setResult
     (Some {| isCorrect := geminiService.isCorrect v;
              userAnswer := trim input;
              explanation := Some (geminiService.explanation v) |}) c,
   Fulfilled tt, log).
Proof.
  intros Hm Hv.
  unfold QuizCard.verify. fold (Session.containment (meanings wordData) (trim input)).
  rewrite Hm. rewrite (run_bind_fulfilled _ _ _ env _ _ _ _ v log (Hv _)).
  cbn. now rewrite app_nil_r.
Qed.

(** The handler around it: the spinner goes on, the [try] block runs,
    the spinner goes off. *)
Lemma handleSubmit_verify (wordData : WordItem) (input : jsstring) env
      (c c' : QuizCard.Hooks) log :
  trim input <> [] ->
  run env (QuizCard.verify wordData input) (QuizCard.setIsChecking true c) =
    (c', Fulfilled tt, log) ->
  run env (QuizCard.handleSubmit wordData input) c =
    (QuizCard.setIsChecking false c', Fulfilled tt, log).
Proof.
  intros Hne Hv. apply truthy_nonempty in Hne.
  unfold QuizCard.handleSubmit. rewrite Hne. cbn [negb bind set run].
  apply run_tryFinally_fulfilled. now apply run_tryCatch_fulfilled.
Qed.

(** Seen from the handler. Let the oracle fail on the request for this
    answer: the call rejects, or its text does not parse, or the
    response has no text.
    Then nothing fails for the caller: the [try] block of the handler,
    and the handler itself for every answer that is not blank, settle
    normally, and the outcome on the card has for [isCorrect] the value
    of the containment heuristic on the trimmed answer and the accepted
    meanings. Where the oracle was consulted at all (the heuristic says
    no), it was consulted once and the explanation is one of the two
    failure labels of the service. *)
Lemma oracle_failure_is_absorbed (wordData : WordItem) (input : jsstring)
        (env : Request -> Settled GenerateContentResponse) (c : QuizCard.Hooks) :
  Session.oracle_unusable
    (env (CheckPrompt (word wordData) (meanings wordData) (trim input))) ||
  Session.silent
    (env (CheckPrompt (word wordData) (meanings wordData) (trim input))) = true ->
  exists label log,
    run env (QuizCard.verify wordData input) c =
      (QuizCard.setResult
         (Some {| isCorrect := Session.containment (meanings wordData) (trim input);
                  userAnswer := trim input;
                  explanation := Some label |}) c,
       Fulfilled tt, log) /\
    (trim input <> [] ->
     run env (QuizCard.handleSubmit wordData input) c =
       ({| QuizCard.input := QuizCard.input c;
           QuizCard.isChecking := false;
           QuizCard.result :=
             Some {| isCorrect := Session.containment (meanings wordData) (trim input);
                     userAnswer := trim input;
                     explanation := Some label |} |},
        Fulfilled tt, log)) /\
    (Session.containment (meanings wordData) (trim input) = false ->
     log = [CheckPrompt (word wordData) (meanings wordData) (trim input)] /\
     (label = lit "API Error" \/ label = geminiService.cannot_verify)).
Proof.
  intros H.
  destruct (Session.containment (meanings wordData) (trim input)) eqn:Hm.
  - (* the local tier answers; the oracle is not asked *)
    exists (lit "Correct!"), []. split; [|split].
    + now rewrite (verify_local _ _ Hm).
    + intros Hne. apply truthy_nonempty in Hne.
      now rewrite (handleSubmit_local _ _ env c Hne Hm).
    + discriminate.
  - assert (V : exists v,
               (forall s : QuizCard.Hooks,
                  run env (geminiService.smartCheckAnswer
                             (word wordData) (meanings wordData) (trim input)) s =
                  (s, Fulfilled v,
                   [CheckPrompt (word wordData) (meanings wordData) (trim input)])) /\
               geminiService.isCorrect v = false /\
               (geminiService.explanation v = lit "API Error" \/
                geminiService.explanation v = geminiService.cannot_verify)).
    { apply orb_true_iff in H. destruct H as [H|H].
      - exists (fallback_verdict (meanings wordData) (trim input)). split; [|split].
        + intros s. now apply smartCheckAnswer_unusable.
        + unfold fallback_verdict. cbn. exact Hm.
        + unfold fallback_verdict. cbn. rewrite Hm. now left.
      - exists silent_verdict. split; [|split].
        + intros s. now apply smartCheckAnswer_silent.
        + reflexivity.
        + now right. }
    destruct V as [v [Hv [Hc Hl]]].
    exists (geminiService.explanation v),
           [CheckPrompt (word wordData) (meanings wordData) (trim input)].
    split; [|split].
    + rewrite (verify_oracle wordData input env c v _ Hm Hv). now rewrite Hc.
    + intros Hne.
      rewrite (handleSubmit_verify wordData input env c _ _ Hne
                 (verify_oracle wordData input env _ v _ Hm Hv)).
      now rewrite Hc.
    + intros _. split; trivial.
Qed.

(** C4, as the code has it. For every word, list of meanings and
    answer, [smartCheckAnswer] lets no failure of the oracle through to
    its caller. When the call rejects or its text does not parse, it
    resolves to the answer of the containment heuristic on these
    meanings and this answer, labelled API Error when the heuristic
    says no and Local match when it says yes. When the response has no
    text, the heuristic is not consulted: it resolves to
    [isCorrect: false], labelled as impossible to verify. From the
    submit handler, which asks the oracle only after the local tier has
    found no containment, the outcome on the card is in all these cases
    the heuristic's [false] under one of the two failure labels, and the
    handler settles normally. *)
Theorem smartCheckAnswer_absorbs_failure (w : jsstring) (accepted : list jsstring)
        (answer : jsstring) (env : Request -> Settled GenerateContentResponse) :
  (Session.oracle_unusable (env (CheckPrompt w accepted answer)) = true ->
   forall (S : Type) (s : S),
     run env (geminiService.smartCheckAnswer w accepted answer) s =
     (s, Fulfilled {| geminiService.isCorrect := Session.containment accepted answer;
                      geminiService.explanation :=
                        if Session.containment accepted answer
                        then lit "Local match" else lit "API Error" |},
      [CheckPrompt w accepted answer])) /\
  (Session.silent (env (CheckPrompt w accepted answer)) = true ->
   forall (S : Type) (s : S),
     run env (geminiService.smartCheckAnswer w accepted answer) s =
     (s, Fulfilled {| geminiService.isCorrect := false;
                      geminiService.explanation := geminiService.cannot_verify |},
      [CheckPrompt w accepted answer])) /\
  (Session.oracle_unusable (env (CheckPrompt w accepted answer)) ||
   Session.silent (env (CheckPrompt w accepted answer)) = true ->
   forall (wordData : WordItem) (input : jsstring) (c : QuizCard.Hooks),
     word wordData = w -> meanings wordData = accepted -> trim input = answer ->
     answer <> [] ->
     Session.containment accepted answer = false ->
     exists label,
       run env (QuizCard.handleSubmit wordData input) c =
       ({| QuizCard.input := QuizCard.input c;
           QuizCard.isChecking := false;
           QuizCard.result :=
             Some {| isCorrect := Session.containment accepted answer;
                     userAnswer := answer;
                     explanation := Some label |} |},
        Fulfilled tt, [CheckPrompt w accepted answer]) /\
       (label = lit "API Error" \/ label = geminiService.cannot_verify)).
Proof.
  split; [|split].
  - intros H S s. now apply smartCheckAnswer_unusable.
  - intros H S s. now apply smartCheckAnswer_silent.
  - intros H wordData input c <- <- <- Hne Hm.
    destruct (oracle_failure_is_absorbed wordData input env c H)
      as [label [log [_ [Hrun Hlog]]]].
    destruct (Hlog Hm) as [-> Hlabel].
    exists label. split; trivial. now apply Hrun.
Qed.

(** A verdict that parses is handed on as it is. *)
Lemma smartCheckAnswer_verdict (S : Type) w accepted answer env (s : S) t v :
  env (CheckPrompt w accepted answer) = Fulfilled {| text := Some t |} ->
  t <> [] ->
  geminiService.JSON_parse_verdict t = Some v ->
  run env (geminiService.smartCheckAnswer w accepted answer) s =
  (s, Fulfilled v, [CheckPrompt w accepted answer]).
Proof.
  intros He Hne Hp. unfold geminiService.smartCheckAnswer. cbn. rewrite He. cbn.
  destruct t as [|c t]; [congruence|]. cbn. now rewrite Hp.
Qed.

End OracleFailure.

(** The second scenario of the specification: the backend is out of
    reach and the answer matches nothing. *)
Lemma oracle_failure_witness :
  exists label log,
    run Sample.offline (QuizCard.verify (J := Sample.runtime) Sample.apple Sample.juzi)
        QuizCard.mounted =
      (QuizCard.setResult
         (Some {| isCorrect := Session.containment (meanings Sample.apple)
                                                   (trim Sample.juzi);
                  userAnswer := trim Sample.juzi;
                  explanation := Some label |}) QuizCard.mounted,
       Fulfilled tt, log) /\
    (trim Sample.juzi <> [] ->
     run Sample.offline
         (QuizCard.handleSubmit (J := Sample.runtime) Sample.apple Sample.juzi)
         QuizCard.mounted =
       ({| QuizCard.input := [];
           QuizCard.isChecking := false;
           QuizCard.result :=
             Some {| isCorrect := Session.containment (meanings Sample.apple)
                                                      (trim Sample.juzi);
                     userAnswer := trim Sample.juzi;
                     explanation := Some label |} |},
        Fulfilled tt, log)) /\
    (Session.containment (meanings Sample.apple) (trim Sample.juzi) = false ->
     log = [CheckPrompt (word Sample.apple) (meanings Sample.apple) (trim Sample.juzi)] /\
     (label = lit "API Error" \/ label = geminiService.cannot_verify)).
Proof.
  apply (oracle_failure_is_absorbed (J := Sample.runtime)
           Sample.apple Sample.juzi Sample.offline QuizCard.mounted).
  reflexivity.
Defined.

(** The two halves of the amended C4 at work: with the backend out of
    reach the service answers what the heuristic answers, yes for an
    answer that is one of the meanings and no for one that matches
    nothing; and the handler, asked the second, records the no under
    the API Error label. *)
Lemma smartCheckAnswer_failure_witness :
  (forall (S : Type) (s : S),
     run Sample.offline
         (geminiService.smartCheckAnswer (J := Sample.runtime)
            (word Sample.apple) (meanings Sample.apple) Sample.pingguo) s =
     (s, Fulfilled {| geminiService.isCorrect :=
                        Session.containment (meanings Sample.apple) Sample.pingguo;
                      geminiService.explanation :=
                        if Session.containment (meanings Sample.apple) Sample.pingguo
                        then lit "Local match" else lit "API Error" |},
      [CheckPrompt (word Sample.apple) (meanings Sample.apple) Sample.pingguo])) /\
  Session.containment (meanings Sample.apple) Sample.pingguo = true /\
  exists label,
    run Sample.offline
        (QuizCard.handleSubmit (J := Sample.runtime) Sample.apple Sample.juzi)
        QuizCard.mounted =
    ({| QuizCard.input := [];
        QuizCard.isChecking := false;
        QuizCard.result :=
          Some {| isCorrect := Session.containment (meanings Sample.apple) Sample.juzi;
                  userAnswer := Sample.juzi;
                  explanation := Some label |} |},
     Fulfilled tt,
     [CheckPrompt (word Sample.apple) (meanings Sample.apple) Sample.juzi]) /\
    (label = lit "API Error" \/ label = geminiService.cannot_verify).
Proof.
  split; [|split].
  - apply (proj1 (smartCheckAnswer_absorbs_failure (J := Sample.runtime)
                    (word Sample.apple) (meanings Sample.apple)
                    Sample.pingguo Sample.offline)).
    reflexivity.
  - reflexivity.
  - apply (proj2 (proj2 (smartCheckAnswer_absorbs_failure (J := Sample.runtime)
                           (word Sample.apple) (meanings Sample.apple)
                           Sample.juzi Sample.offline)));
      try reflexivity; discriminate.
Defined.

(** C4, as stated, fails. The answer below is one of the accepted
    meanings, so the containment heuristic accepts it; yet on a response
    without text [smartCheckAnswer] resolves to [isCorrect: false]
    without consulting the heuristic. And when the call rejects, the
    heuristic's yes comes back labelled Local match, which marks
    nothing as degraded. *)
Lemma smartCheckAnswer_on_a_matching_answer :
  Session.containment [Sample.pingguo] Sample.pingguo = true /\
  run Sample.mute
      (geminiService.smartCheckAnswer (J := Sample.runtime)
         (lit "apple") [Sample.pingguo] Sample.pingguo) tt =
  (tt, Fulfilled {| geminiService.isCorrect := false;
                    geminiService.explanation := geminiService.cannot_verify |},
   [CheckPrompt (lit "apple") [Sample.pingguo] Sample.pingguo]) /\
  run Sample.offline
      (geminiService.smartCheckAnswer (J := Sample.runtime)
         (lit "apple") [Sample.pingguo] Sample.pingguo) tt =
  (tt, Fulfilled {| geminiService.isCorrect := true;
                    geminiService.explanation := lit "Local match" |},
   [CheckPrompt (lit "apple") [Sample.pingguo] Sample.pingguo]).
Proof. repeat split. Qed.

(* ================================================================== *)
(** * Starting a session *)
(* ================================================================== *)

Section Start.
Context {J : geminiService.JSON}.

Lemma fetchWordBatch_run (S : Type) env level (s : S) :
  run env (geminiService.fetchWordBatch level 5) s =
  (s, fetched env level, [WordsPrompt level 5]).
Proof.
  unfold fetched, geminiService.fetchWordBatch. cbn.
  destruct (env (WordsPrompt level 5)) as [[[t|]]|e]; cbn; try reflexivity.
  destruct t as [|c t]; cbn; [reflexivity|].
  destruct (geminiService.JSON_parse_words (c :: t)); reflexivity.
Qed.

Lemma fetched_cases env level :
  fetched env level =
  match env (WordsPrompt level 5) with
  | Rejected e => Rejected e
  | Fulfilled response =>
      match text response with
      | None | Some [] => Fulfilled []
      | Some t =>
          match geminiService.JSON_parse_words t with
          | Some ws => Fulfilled ws
          | None => Rejected SyntaxError
          end
      end
  end.
Proof.
  unfold fetched, geminiService.fetchWordBatch. cbn.
  destruct (env (WordsPrompt level 5)) as [[[t|]]|e]; cbn; try reflexivity.
  destruct t as [|c t]; cbn; [reflexivity|].
  destruct (geminiService.JSON_parse_words (c :: t)); reflexivity.
Qed.

(** C1, as the code has it. [startGame] never rejects. When the fetch
    fails (the call rejects or the text does not parse) it leaves the
    quiz state as it was, sets the error message and puts the
    application in the ERROR loading state, which shows the home
    screen. Whatever batch the fetch yields is installed, with the
    READY state and no error message; and a response without text
    yields the empty batch, which is installed like any other. *)
Theorem startGame_settles (level : VocabularyLevel)
        (env : Request -> Settled GenerateContentResponse) (a : App.Hooks) :
  (forall e, fetched env level = Rejected e ->
     run env (App.startGame level) a =
     ({| App.loadingState := ERROR; App.selectedLevel := level;
         App.quizState := App.quizState a;
         App.errorMsg := App.generation_failed |},
      Fulfilled tt, [WordsPrompt level 5])) /\
  (forall batch, fetched env level = Fulfilled batch ->
     run env (App.startGame level) a =
     ({| App.loadingState := READY; App.selectedLevel := level;
         App.quizState := Session.fresh batch;
         App.errorMsg := [] |},
      Fulfilled tt, [WordsPrompt level 5])) /\
  (Session.silent (env (WordsPrompt level 5)) = true ->
     fetched env level = Fulfilled []).
Proof.
  assert (R : forall r, fetched env level = r ->
            run env (App.startGame level) a =
            (match r with
             | Fulfilled batch =>
                 {| App.loadingState := READY; App.selectedLevel := level;
                    App.quizState := Session.fresh batch; App.errorMsg := [] |}
             | Rejected _ =>
                 {| App.loadingState := ERROR; App.selectedLevel := level;
                    App.quizState := App.quizState a;
                    App.errorMsg := App.generation_failed |}
             end, Fulfilled tt, [WordsPrompt level 5])).
  { intros r <-. rewrite fetched_cases.
    unfold App.startGame, geminiService.fetchWordBatch. cbn.
    destruct (env (WordsPrompt level 5)) as [[[t|]]|e]; cbn; try reflexivity.
    destruct t as [|c t]; cbn; [reflexivity|].
    destruct (geminiService.JSON_parse_words (c :: t)); reflexivity. }
  split; [|split].
  - intros e H. exact (R _ H).
  - intros batch H. exact (R _ H).
  - intros H. rewrite fetched_cases.
    destruct (env (WordsPrompt level 5)) as [[[[|c t]|]]|e]; cbn in *;
      congruence.
Qed.

End Start.

Lemma startGame_witness :
  run Sample.offline (App.startGame (J := Sample.runtime) KAOYAN) App.initial =
    ({| App.loadingState := ERROR; App.selectedLevel := KAOYAN;
        App.quizState := App.INITIAL_QUIZ_STATE;
        App.errorMsg := App.generation_failed |},
     Fulfilled tt, [WordsPrompt KAOYAN 5]) /\
  run Sample.helpful (App.startGame (J := Sample.runtime) KAOYAN) App.initial =
    ({| App.loadingState := READY; App.selectedLevel := KAOYAN;
        App.quizState := Session.fresh [Sample.fruit; Sample.orange];
        App.errorMsg := [] |},
     Fulfilled tt, [WordsPrompt KAOYAN 5]) /\
  fetched (J := Sample.runtime) Sample.mute KAOYAN = Fulfilled [].
Proof.
  split; [|split].
  - apply (proj1 (startGame_settles (J := Sample.runtime) KAOYAN Sample.offline
                    App.initial) ApiError).
    reflexivity.
  - apply (proj1 (proj2 (startGame_settles (J := Sample.runtime) KAOYAN
                           Sample.helpful App.initial))).
    reflexivity.
  - apply (proj2 (proj2 (startGame_settles (J := Sample.runtime) KAOYAN
                           Sample.mute App.initial))).
    reflexivity.
Defined.

(** C1, as stated, fails: a response without text makes the batch
    empty, and the empty batch is installed as a READY session with no
    error message. The application then shows the game screen with no
    card on it. The same happens when the text is the empty array. *)
Lemma empty_batch_is_installed :
  let '(a, settled, _) :=
    run Sample.mute (App.startGame (J := Sample.runtime) CET6) App.initial in
  settled = Fulfilled tt /\
  App.loadingState a = READY /\
  App.errorMsg a = [] /\
  List.length (words (App.quizState a)) = 0 /\
  App.screen a = App.Game /\
  App.cardShown a = None /\
  run (fun _ => Fulfilled {| text := Some (Sample.stringify_words []) |})
      (App.startGame (J := Sample.runtime) CET6) App.initial =
  run Sample.mute (App.startGame (J := Sample.runtime) CET6) App.initial.
Proof. cbn. repeat split. Qed.

(* ================================================================== *)
(** * Advancing through the batch *)
(* ================================================================== *)

Lemma handleNextWord_last (b : bool) (q : QuizState) :
  List.length (words q) <= currentWordIndex q + 1 ->
  App.handleNextWord b q =
  {| currentWordIndex := currentWordIndex q;
     words := words q;
     score := if b then score q + 1 else score q;
     totalAnswered := totalAnswered q + 1;
     streak := if b then streak q + 1 else 0;
     isFinished := true |}.
Proof.
  intros H. unfold App.handleNextWord.
  destruct (Z.geb_spec (Z.of_nat (currentWordIndex q))
                       (Z.of_nat (List.length (words q)) - 1)) as [_|E].
  - reflexivity.
  - lia.
Qed.

Lemma handleNextWord_inner (b : bool) (q : QuizState) :
  currentWordIndex q + 1 < List.length (words q) ->
  App.handleNextWord b q =
  {| currentWordIndex := currentWordIndex q + 1;
     words := words q;
     score := if b then score q + 1 else score q;
     totalAnswered := totalAnswered q + 1;
     streak := if b then streak q + 1 else 0;
     isFinished := isFinished q |}.
Proof.
  intros H. unfold App.handleNextWord.
  destruct (Z.geb_spec (Z.of_nat (currentWordIndex q))
                       (Z.of_nat (List.length (words q)) - 1)) as [E|_].
  - lia.
  - reflexivity.
Qed.

(** Both branches of [handleNextWord] count alike. *)
Lemma handleNextWord_counts (b : bool) (q : QuizState) :
  words (App.handleNextWord b q) = words q /\
  totalAnswered (App.handleNextWord b q) = totalAnswered q + 1 /\
  score (App.handleNextWord b q) = (if b then score q + 1 else score q) /\
  streak (App.handleNextWord b q) = (if b then streak q + 1 else 0).
Proof.
  destruct (le_lt_dec (List.length (words q)) (currentWordIndex q + 1)) as [H|H].
  - rewrite (handleNextWord_last b q H). repeat split.
  - rewrite (handleNextWord_inner b q H). repeat split.
Qed.

Lemma cardOnScreen_inv (q : QuizState) :
  Session.cardOnScreen q = true ->
  isFinished q = false /\ currentWordIndex q < List.length (words q).
Proof.
  unfold Session.cardOnScreen, App.currentWord. intros H.
  apply andb_true_iff in H. destruct H as [Hf Hw].
  split.
  - now destruct (isFinished q).
  - apply nth_error_Some. now destruct (nth_error (words q) (currentWordIndex q)).
Qed.

Lemma reachable_invariant (batch : list WordItem) (q : QuizState) :
  Session.reachable batch q -> session_invariant batch q.
Proof.
  induction 1 as [|q b Hq IH Hc].
  - constructor; cbn; try lia; try discriminate; try reflexivity.
    intros _. split; [reflexivity|]. destruct batch; [congruence | cbn; lia].
  - destruct IH as [Hw Hs Ht Hr Hf].
    apply cardOnScreen_inv in Hc. destruct Hc as [Hnf Hlt].
    destruct (Hr Hnf) as [Hidx Hroom]. rewrite Hw in Hlt.
    assert (Hne : batch <> []) by (destruct batch; [cbn in Hlt; lia | congruence]).
    specialize (Hroom Hne).
    destruct (le_lt_dec (List.length (words q)) (currentWordIndex q + 1)) as [H|H].
    + rewrite (handleNextWord_last b q H). rewrite Hw in H.
      constructor; cbn; try assumption; try discriminate;
        try (intros _); try (destruct b); lia.
    + rewrite (handleNextWord_inner b q H). rewrite Hw in H.
      constructor; cbn; try assumption;
        try (intros E; rewrite E in Hnf; discriminate);
        try (intros _); try (destruct b); lia.
Qed.

(** C2, as the code has it. Every state of a session (from the state
    [startGame] installs, through Continue clicks on the card) has
    [score <= totalAnswered <= length words] and
    [currentWordIndex <= totalAnswered]. While the quiz runs the index
    equals [totalAnswered]; the last Continue leaves the index on the
    last word, so a finished quiz has [currentWordIndex = length words - 1].
    For a batch that is not empty, [isFinished] holds exactly when
    [totalAnswered = length words]. *)
Theorem session_state_invariant (batch : list WordItem) (q : QuizState) :
  Session.reachable batch q ->
  words q = batch /\
  score q <= totalAnswered q <= List.length (words q) /\
  currentWordIndex q <= totalAnswered q /\
  (isFinished q = false -> currentWordIndex q = totalAnswered q) /\
  (isFinished q = true -> currentWordIndex q + 1 = List.length (words q)) /\
  (batch <> [] ->
   (isFinished q = true <-> totalAnswered q = List.length (words q))).
Proof.
  intros H. destruct (reachable_invariant batch q H) as [Hw Hs Ht Hr Hf].
  rewrite Hw. repeat split; trivial.
  - destruct (isFinished q); [destruct Hf; trivial; lia | destruct Hr; trivial; lia].
  - intros E. now apply Hr.
  - intros E. now apply Hf.
  - intros E. now apply Hf.
  - intros E. destruct (isFinished q); [reflexivity|].
    destruct Hr as [_ Hr]; trivial. specialize (Hr H0). lia.
Qed.

Lemma session_state_witness :
  words both_answered = [Sample.fruit; Sample.orange] /\
  score both_answered <= totalAnswered both_answered
                      <= List.length (words both_answered) /\
  currentWordIndex both_answered <= totalAnswered both_answered /\
  (isFinished both_answered = false ->
   currentWordIndex both_answered = totalAnswered both_answered) /\
  (isFinished both_answered = true ->
   currentWordIndex both_answered + 1 = List.length (words both_answered)) /\
  ([Sample.fruit; Sample.orange] <> [] ->
   (isFinished both_answered = true <->
    totalAnswered both_answered = List.length (words both_answered))).
Proof.
  apply (session_state_invariant [Sample.fruit; Sample.orange] both_answered).
  apply Session.reach_next; [apply Session.reach_next; [apply Session.reach_fresh|]|];
    reflexivity.
Defined.

(** C2, as stated, fails: after the only word of a one-word batch is
    answered the quiz is finished with [totalAnswered = 1] and
    [currentWordIndex = 0], so neither [totalAnswered <= position] nor
    [position = length words] holds. *)
Lemma finished_index_stays_on_last_word :
  Session.reachable [Sample.apple]
    (App.handleNextWord true (Session.fresh [Sample.apple])) /\
  isFinished (App.handleNextWord true (Session.fresh [Sample.apple])) = true /\
  totalAnswered (App.handleNextWord true (Session.fresh [Sample.apple])) = 1 /\
  currentWordIndex (App.handleNextWord true (Session.fresh [Sample.apple])) = 0 /\
  List.length (words (App.handleNextWord true (Session.fresh [Sample.apple]))) = 1.
Proof.
  split; [|repeat split].
  apply Session.reach_next; [apply Session.reach_fresh | reflexivity].
Qed.

(** Histories of outcomes. *)
Lemma play_snoc (outcomes : list bool) (b : bool) (q : QuizState) :
  Session.play (outcomes ++ [b]) q = App.handleNextWord b (Session.play outcomes q).
Proof.
  revert q. induction outcomes as [|c l IH]; intros q; cbn.
  - reflexivity.
  - apply IH.
Qed.

Lemma play_counts (outcomes : list bool) (q : QuizState) :
  totalAnswered (Session.play outcomes q) = totalAnswered q + List.length outcomes /\
  score (Session.play outcomes q) = score q + count_occ bool_dec outcomes true.
Proof.
  revert q. induction outcomes as [|b l IH]; intros q; cbn [Session.play].
  - cbn. lia.
  - destruct (IH (App.handleNextWord b q)) as [Ht Hs].
    destruct (handleNextWord_counts b q) as [_ [Ht' [Hs' _]]].
    rewrite Ht, Hs, Ht', Hs'. destruct b; cbn; lia.
Qed.

(** C5. One call of [handleNextWord] adds 1 to [totalAnswered], adds 1
    to [score] exactly when the outcome was correct, and sets [streak]
    to [streak + 1] or to 0; so after a history of outcomes, starting
    from a fresh session, [totalAnswered] is its length and [score] the
    number of correct outcomes in it. *)
Theorem advance_counts :
  (forall (b : bool) (q : QuizState),
     totalAnswered (App.handleNextWord b q) = totalAnswered q + 1 /\
     (score (App.handleNextWord b q) = score q + 1 <-> b = true) /\
     (score (App.handleNextWord b q) = score q <-> b = false) /\
     streak (App.handleNextWord b q) = (if b then streak q + 1 else 0)) /\
  (forall (batch : list WordItem) (outcomes : list bool),
     totalAnswered (Session.play outcomes (Session.fresh batch)) =
       List.length outcomes /\
     score (Session.play outcomes (Session.fresh batch)) =
       count_occ bool_dec outcomes true).
Proof.
  split.
  - intros b q. destruct (handleNextWord_counts b q) as [_ [Ht [Hs Hk]]].
    rewrite Ht, Hs, Hk. destruct b; repeat split; intros; try lia; congruence.
  - intros batch outcomes.
    destruct (play_counts outcomes (Session.fresh batch)) as [Ht Hs].
    now rewrite Ht, Hs.
Qed.

Lemma leading_run_app_false (l l' : list bool) :
  Session.leading_run (l ++ false :: l') = Session.leading_run l.
Proof.
  induction l as [|[|] l IH]; cbn; congruence.
Qed.

Lemma trailing_run_snoc (outcomes : list bool) (b : bool) :
  Session.trailing_run (outcomes ++ [b]) =
  if b then S (Session.trailing_run outcomes) else 0.
Proof.
  unfold Session.trailing_run. rewrite rev_app_distr. now destruct b.
Qed.

(** [trailing_run] is the length of the longest run of correct
    outcomes that ends the history. *)
Lemma trailing_run_spec (outcomes : list bool) :
  exists before,
    outcomes = before ++ repeat true (Session.trailing_run outcomes) /\
    (before = [] \/ exists before', before = before' ++ [false]).
Proof.
  induction outcomes as [|b l IH] using rev_ind.
  - exists []. split; [reflexivity | now left].
  - rewrite trailing_run_snoc. destruct b.
    + destruct IH as [before [E Hb]]. exists before. split; trivial.
      remember (Session.trailing_run l) as n eqn:Hn. clear Hn.
      rewrite E, <- app_assoc. f_equal. cbn. symmetry. apply repeat_cons.
    + exists (l ++ [false]). split; [cbn; now rewrite app_nil_r | right; now exists l].
Qed.

(** C6. After every history of outcomes the streak is the length of
    its trailing run of correct outcomes: an incorrect outcome sets it
    to 0 and a correct one adds 1; nothing else changes it. *)
Theorem streak_is_trailing_run (batch : list WordItem) (outcomes : list bool) :
  streak (Session.play outcomes (Session.fresh batch)) =
    Session.trailing_run outcomes /\
  streak (Session.play (outcomes ++ [false]) (Session.fresh batch)) = 0 /\
  streak (Session.play (outcomes ++ [true]) (Session.fresh batch)) =
    streak (Session.play outcomes (Session.fresh batch)) + 1.
Proof.
  assert (H : forall l, streak (Session.play l (Session.fresh batch)) =
                        Session.trailing_run l).
  { induction l as [|b l IH] using rev_ind.
    - reflexivity.
    - rewrite play_snoc, trailing_run_snoc.
      destruct (handleNextWord_counts b (Session.play l (Session.fresh batch)))
        as [_ [_ [_ Hk]]].
      rewrite Hk, IH. destruct b; lia. }
  split; [apply H|]. rewrite !H, !trailing_run_snoc. lia.
Qed.

(** Any history no longer than the batch is one the interface can
    produce. *)
Lemma play_reachable (batch : list WordItem) (outcomes : list bool) :
  List.length outcomes <= List.length batch ->
  Session.reachable batch (Session.play outcomes (Session.fresh batch)).
Proof.
  induction outcomes as [|b l IH] using rev_ind; intros Hlen.
  - apply Session.reach_fresh.
  - rewrite length_app in Hlen. cbn in Hlen.
    assert (Hl : List.length l <= List.length batch) by lia.
    specialize (IH Hl). rewrite play_snoc.
    apply Session.reach_next; trivial.
    destruct (reachable_invariant _ _ IH) as [Hw Hs Ht Hr Hf].
    destruct (play_counts l (Session.fresh batch)) as [Hn _]. cbn in Hn.
    unfold Session.cardOnScreen, App.currentWord.
    destruct (isFinished (Session.play l (Session.fresh batch))) eqn:E.
    + destruct Hf as [_ Hf]; trivial. lia.
    + destruct Hr as [Hi _]; trivial. cbn.
      destruct (nth_error (words (Session.play l (Session.fresh batch)))
                          (currentWordIndex (Session.play l (Session.fresh batch))))
        eqn:N; trivial.
      apply nth_error_None in N. rewrite Hw in N. lia.
Qed.

(* ================================================================== *)
(** * The accuracy on the result screen *)
(* ================================================================== *)

Lemma exact_below_40 : exact_below 40 = true.
Proof. vm_compute. reflexivity. Qed.

(** C7, as the code has it. The screen shows
    [Math.round((score / length) * 100)], computed in doubles. For every
    batch of fewer than 40 words, the five-word batch the application
    asks for among them, this is the exact quotient [100 * score / length]
    rounded to the nearest integer (halves upwards); 3 correct answers
    out of 5 words give 60. *)
Theorem accuracy_of_small_batches (q : QuizState) :
  0 < List.length (words q) < 40 ->
  score q <= List.length (words q) ->
  accuracyPercent q =
  Some (Number.round_ratio (100 * Z.of_nat (score q))
                           (Z.of_nat (List.length (words q)))).
Proof.
  intros Hn Hs. change (accuracyPercent q) with
    (percent (score q) (List.length (words q))).
  pose proof exact_below_40 as H. unfold exact_below in H.
  rewrite forallb_forall in H.
  specialize (H (List.length (words q))).
  rewrite forallb_forall in H.
  assert (E : percent_exact (score q) (List.length (words q)) = true).
  { apply H; apply in_seq; lia. }
  unfold percent_exact in E.
  destruct (percent (score q) (List.length (words q))); [|discriminate].
  apply Z.eqb_eq in E. now rewrite E.
Qed.

Lemma accuracy_witness :
  accuracyPercent
    (Session.play [true; false; true; true; false]
                  (Session.fresh (repeat Sample.apple 5))) = Some 60%Z.
Proof.
  apply (accuracy_of_small_batches
           (Session.play [true; false; true; true; false]
                         (Session.fresh (repeat Sample.apple 5)))).
  - cbn. lia.
  - cbn. lia.
Defined.

(** C7, as stated, fails. A finished session of 40 words with 23
    correct answers shows 57: [23 / 40] is the double nearest to 0.575,
    its product with 100 falls just below 57.5, and [Math.round] takes
    it down. The exact quotient is 57.5, which rounds to 58, and 58 is
    also what [Math.round(100 * score / length)] gives in doubles. *)
Lemma accuracy_of_23_in_40 :
  Session.reachable (repeat Sample.apple 40)
    (Session.play (repeat true 23 ++ repeat false 17)
                  (Session.fresh (repeat Sample.apple 40))) /\
  isFinished (Session.play (repeat true 23 ++ repeat false 17)
                           (Session.fresh (repeat Sample.apple 40))) = true /\
  score (Session.play (repeat true 23 ++ repeat false 17)
                      (Session.fresh (repeat Sample.apple 40))) = 23 /\
  accuracyPercent (Session.play (repeat true 23 ++ repeat false 17)
                                (Session.fresh (repeat Sample.apple 40))) = Some 57%Z /\
  Number.round_ratio (100 * 23) 40 = 58%Z /\
  Number.Math_round
    (PrimFloat.div (PrimFloat.mul 100%float (Number.ofNat 23)) (Number.ofNat 40)) =
  Some 58%Z.
Proof.
  split; [apply play_reachable; vm_compute; lia|].
  vm_compute. repeat split.
Qed.

(* ================================================================== *)
(** * Late results *)
(* ================================================================== *)

Section LateResults.
Context {J : geminiService.JSON}.

Lemma startGame_suspends (level : VocabularyLevel) (a : App.Hooks) :
  exists k,
    sync (App.startGame level) a =
    ({| App.loadingState := LOADING; App.selectedLevel := level;
        App.quizState := App.quizState a; App.errorMsg := [] |},
     Suspends (WordsPrompt level 5) k).
Proof. eexists. reflexivity. Qed.

Lemma startGame_resumes k :
  from_startGame k ->
  forall r a, exists a',
    sync (k r) a = (a', Settles (Fulfilled tt)) /\
    (App.loadingState a' = READY \/ App.loadingState a' = ERROR).
Proof.
  intros [level [a0 [req H]]] r a. cbn in H. injection H as _ <-.
  destruct r as [[[t|]]|e]; cbn.
  - destruct t as [|c t]; cbn.
    + eexists; split; [reflexivity | now left].
    + destruct (geminiService.JSON_parse_words (c :: t)); cbn;
        eexists; (split; [reflexivity|]); auto.
  - eexists; split; [reflexivity | now left].
  - eexists; split; [reflexivity | now right].
Qed.

Lemma handleSubmit_sync (w : WordItem) (input : jsstring) (c : QuizCard.Hooks) :
  (exists h, sync (QuizCard.handleSubmit w input) c = (h, Settles (Fulfilled tt))) \/
  (exists req k, sync (QuizCard.handleSubmit w input) c =
                 (QuizCard.setIsChecking true c, Suspends req k)).
Proof.
  unfold QuizCard.handleSubmit, QuizCard.verify.
  destruct (truthy (trim input)); cbn.
  - destruct (existsb _ (meanings w)); cbn.
    + left. eexists. reflexivity.
    + right. do 2 eexists. reflexivity.
  - left. eexists. reflexivity.
Qed.

Lemma handleSubmit_resumes w k :
  from_handleSubmit w k ->
  forall r c, exists h, sync (k r) c = (h, Settles (Fulfilled tt)).
Proof.
  intros [input [c0 [req H]]] r c.
  unfold QuizCard.handleSubmit, QuizCard.verify in H.
  destruct (truthy (trim input)); cbn in H; [|discriminate].
  destruct (existsb _ (meanings w)); cbn in H; [discriminate|].
  injection H as _ <-.
  destruct r as [[[t|]]|e]; cbn.
  - destruct t as [|d t]; cbn.
    + eexists; reflexivity.
    + destruct (geminiService.JSON_parse_verdict (d :: t)); cbn; eexists; reflexivity.
  - eexists; reflexivity.
  - eexists; reflexivity.
Qed.

Lemma cardShown_ready (a : App.Hooks) (w : WordItem) :
  App.cardShown a = Some w ->
  App.loadingState a = READY /\ App.screen a = App.Game.
Proof.
  unfold App.cardShown, App.screen.
  destruct (App.loadingState a); try discriminate.
  destruct (isFinished (App.quizState a)); try discriminate. auto.
Qed.

Lemma take_nth_single (A : Type) (n : nat) (x y : A) (rest : list A) :
  Card.take_nth n [x] = Some (y, rest) -> y = x /\ rest = [].
Proof.
  destruct n; cbn; intros H.
  - injection H as <- <-. auto.
  - discriminate.
Qed.

Lemma card_needs_ready (u : UI.State) (i : Card.Instance) :
  card_ok u -> UI.card u = Some i -> App.loadingState (UI.app u) = READY.
Proof.
  unfold card_ok. intros H E. rewrite E in H. destruct H as [H _].
  now apply cardShown_ready in H.
Qed.

Lemma no_fetch_unless_loading (u : UI.State) :
  fetches_ok u -> App.loadingState (UI.app u) <> LOADING -> UI.fetches u = [].
Proof.
  unfold fetches_ok. destruct (UI.fetches u) as [|k [|k' l]]; intros H N.
  - reflexivity.
  - now destruct H.
  - contradiction.
Qed.

Lemma render_hidden (changed : bool) (a : App.Hooks) (c : option Card.Instance) :
  App.cardShown a = None -> UI.render changed a c = None.
Proof. unfold UI.render. now intros ->. Qed.

Lemma started_ok (u : UI.State) (level : VocabularyLevel) :
  UI.fetches u = [] ->
  fetches_ok (UI.started u (sync (App.startGame level) (UI.app u))) /\
  card_ok (UI.started u (sync (App.startGame level) (UI.app u))).
Proof.
  intros Hf. destruct (startGame_suspends level (UI.app u)) as [k E].
  rewrite E. unfold UI.started, fetches_ok, card_ok.
  cbn [UI.fetches UI.card UI.app]. rewrite Hf.
  rewrite render_hidden by reflexivity. cbn.
  repeat split. exists level, (UI.app u), (WordsPrompt level 5). now rewrite E.
Qed.

Lemma step_preserves (e : UI.Event) (u u' : UI.State) :
  fetches_ok u -> card_ok u -> UI.step e u = Some u' ->
  fetches_ok u' /\ card_ok u'.
Proof.
  intros Hf Hc Hs. destruct e; cbn in Hs.
  - (* a level button *)
    destruct (App.screen (UI.app u)) eqn:Es; try discriminate.
    destruct (App.levelButtonsEnabled (UI.app u)) eqn:Eb; try discriminate.
    injection Hs as <-. apply started_ok.
    apply no_fetch_unless_loading; trivial.
    unfold App.levelButtonsEnabled in Eb.
    destruct (App.loadingState (UI.app u)); discriminate.
  - (* the batch arrives, or fails to *)
    destruct (Card.take_nth n (UI.fetches u)) as [[k rest]|] eqn:Et; try discriminate.
    injection Hs as <-. unfold fetches_ok in Hf.
    destruct (UI.fetches u) as [|k0 [|k1 l]]; try contradiction.
    + destruct n; discriminate.
    + apply take_nth_single in Et. destruct Et as [-> ->].
      destruct Hf as [Hl Hk].
      destruct (startGame_resumes k0 Hk r (UI.app u)) as [a' [E _]].
      rewrite E. unfold UI.started, fetches_ok, card_ok. cbn. split; trivial.
      destruct (UI.card u) as [i|] eqn:Ec.
      * pose proof (card_needs_ready u i Hc Ec) as R. congruence.
      * unfold UI.render. destruct (App.cardShown a'); cbn; auto.
  - (* typing *)
    destruct (UI.card u) as [i|] eqn:Ec; try discriminate.
    unfold Card.type in Hs.
    destruct (QuizCard.phase (Card.hooks i)); try discriminate.
    injection Hs as <-. unfold fetches_ok, card_ok in *. cbn.
    rewrite Ec in Hc. destruct Hc as [Hw Hp]. repeat split; trivial.
  - (* submitting *)
    destruct (UI.card u) as [i|] eqn:Ec; try discriminate.
    unfold Card.submit in Hs.
    destruct (QuizCard.phase (Card.hooks i)) eqn:Ep; try discriminate.
    destruct (QuizCard.submitDisabled (Card.hooks i)) eqn:Ed; try discriminate.
    unfold fetches_ok, card_ok in *. rewrite Ec in Hc. destruct Hc as [Hw Hp].
    unfold QuizCard.submitDisabled in Ed. apply orb_false_iff in Ed.
    destruct Ed as [_ Ed].
    assert (Hn : Card.pending i = []).
    { unfold pending_ok in Hp. destruct (Card.pending i) as [|p [|p' l]]; trivial.
      - destruct Hp as [[_ [_ Hp]] _]. congruence.
      - contradiction. }
    rewrite Hn in Hs.
    destruct (handleSubmit_sync (Card.wordData i) (QuizCard.input (Card.hooks i))
                                (Card.hooks i)) as [[h E]|[req [k E]]];
      rewrite E in Hs; cbn in Hs; injection Hs as <-; cbn; repeat split; trivial.
    + cbn. unfold QuizCard.phase in Ep.
      destruct (QuizCard.result (Card.hooks i)); [discriminate | reflexivity].
    + exists (QuizCard.input (Card.hooks i)), (Card.hooks i), req. now rewrite E.
  - (* a verdict arrives, or fails to *)
    destruct (UI.card u) as [i|] eqn:Ec; try discriminate.
    unfold Card.settle in Hs.
    destruct (Card.take_nth n (Card.pending i)) as [[p rest]|] eqn:Et; try discriminate.
    unfold fetches_ok, card_ok in *. rewrite Ec in Hc. destruct Hc as [Hw Hp].
    unfold pending_ok in Hp.
    destruct (Card.pending i) as [|p0 [|p1 l]]; try contradiction.
    + destruct n; discriminate.
    + apply take_nth_single in Et. destruct Et as [-> ->].
      destruct Hp as [_ Hk].
      destruct (handleSubmit_resumes _ _ Hk r (Card.hooks i)) as [h E].
      rewrite E in Hs. cbn in Hs. injection Hs as <-. cbn. repeat split; trivial.
  - (* Continue *)
    destruct (UI.card u) as [i|] eqn:Ec; try discriminate.
    destruct (Card.continue i) as [b|] eqn:Eb; try discriminate.
    injection Hs as <-. unfold fetches_ok, card_ok in *. cbn.
    rewrite Ec in Hc. destruct Hc as [Hw Hp]. split; trivial.
    unfold UI.render.
    destruct (App.cardShown (App.setQuizState (App.handleNextWord b) (UI.app u)));
      trivial.
    split; [reflexivity|]. unfold pending_ok in *. cbn.
    destruct (Card.pending i) as [|p [|p' l]]; trivial.
    destruct Hp as [[_ [Hr _]] _].
    unfold Card.continue, QuizCard.handleContinue in Eb. rewrite Hr in Eb. discriminate.
  - (* Back to Menu *)
    destruct (App.screen (UI.app u)) eqn:Es; try discriminate.
    injection Hs as <-. unfold fetches_ok, card_ok. cbn. split; trivial.
    rewrite (no_fetch_unless_loading u Hf); trivial.
    unfold App.screen in Es. destruct (App.loadingState (UI.app u)); discriminate.
  - (* Play Again *)
    destruct (App.screen (UI.app u)) eqn:Es; try discriminate.
    injection Hs as <-. apply started_ok.
    apply no_fetch_unless_loading; trivial.
    unfold App.screen in Es. destruct (App.loadingState (UI.app u)); discriminate.
Qed.

Lemma steps_preserve (es : list UI.Event) (u u' : UI.State) :
  fetches_ok u -> card_ok u -> UI.steps es u = Some u' ->
  fetches_ok u' /\ card_ok u'.
Proof.
  revert u. induction es as [|e es IH]; intros u Hf Hc Hs; cbn in Hs.
  - injection Hs as <-. auto.
  - destruct (UI.step e u) as [u1|] eqn:E; [|discriminate].
    destruct (step_preserves e u u1 Hf Hc E) as [Hf1 Hc1].
    now apply (IH u1).
Qed.

(** C8, as the code has it. [handleSubmit] applies the oracle's verdict
    with no test of what the card shows by then. In the application
    this is harmless: in every state the interface can reach, at most
    one check is suspended, it was submitted for the word now on the
    card, and the card shows neither a result nor, therefore, the
    Continue button, the one control that moves to another word. *)
Theorem pending_check_is_for_the_word_on_screen (u : UI.State) :
  UI.reachable u -> UI.no_stale_check u.
Proof.
  intros [es H].
  destruct (steps_preserve es UI.initial u) as [_ Hc]; trivial.
  - exact I.
  - exact I.
  - unfold card_ok in Hc. unfold UI.no_stale_check.
    destruct (UI.card u) as [i|]; trivial.
    destruct Hc as [Hw Hp]. split; trivial.
    unfold pending_ok in Hp.
    destruct (Card.pending i) as [|p [|p' l]]; trivial. now destruct Hp.
Qed.

End LateResults.

Lemma pending_check_witness :
  option_map (fun i => map Card.submitted (Card.pending i))
             (UI.card waiting_for_the_oracle) = Some [Sample.fruit] /\
  UI.no_stale_check waiting_for_the_oracle.
Proof.
  split; [reflexivity|].
  apply (pending_check_is_for_the_word_on_screen (J := Sample.runtime)
           waiting_for_the_oracle).
  exists [UI.ClickLevel CET6;
          UI.FetchSettles 0 (Sample.helpful (WordsPrompt CET6 5));
          UI.TypeAnswer Sample.guoshi;
          UI.SubmitAnswer].
  reflexivity.
Defined.

(** C8, as stated, fails: the card tests nothing before it applies a
    verdict. The verdict on an answer given for one word lands on the
    card after it has moved to another word, it shows there as the
    result, and Continue passes it to [onNext] as the outcome of the
    word on display, which the answer does not even match locally. *)
Lemma late_verdict_is_applied :
  option_map Card.wordData late_verdict = Some Sample.orange /\
  option_map (fun i => QuizCard.result (Card.hooks i)) late_verdict =
    Some (Some {| isCorrect := true; userAnswer := Sample.guoshi;
                  explanation := Some (lit "ok") |}) /\
  option_map Card.continue late_verdict = Some (Some true) /\
  Session.containment (meanings Sample.orange) Sample.guoshi = false.
Proof. repeat split. Qed.

(* ================================================================== *)
(** * More of the service: how the two calls settle *)
(* ================================================================== *)

Section ServiceSettles.
Context {J : geminiService.JSON}.

(** [smartCheckAnswer] has a verdict for every behaviour of the
    backend. *)
Lemma smartCheckAnswer_run (S : Type) w accepted answer env (s : S) :
  exists v,
    run env (geminiService.smartCheckAnswer w accepted answer) s =
      (s, Fulfilled v, [CheckPrompt w accepted answer]) /\
    (geminiService.isCorrect v = true ->
     Session.containment accepted answer = true \/
     exists response t,
       env (CheckPrompt w accepted answer) = Fulfilled response /\
       text response = Some t /\
       geminiService.JSON_parse_verdict t = Some v).
Proof.
  destruct (env (CheckPrompt w accepted answer)) as [[[t|]]|e] eqn:E.
  - destruct t as [|d t].
    + exists silent_verdict. split; [|discriminate].
      apply smartCheckAnswer_silent. now rewrite E.
    + destruct (geminiService.JSON_parse_verdict (d :: t)) as [v|] eqn:P.
      * exists v. split.
        -- apply (smartCheckAnswer_verdict S w accepted answer env s (d :: t) v);
             trivial. discriminate.
        -- intros _. right. exists {| text := Some (d :: t) |}, (d :: t). auto.
      * exists (fallback_verdict accepted answer). split.
        -- apply smartCheckAnswer_unusable. rewrite E. cbn. now rewrite P.
        -- cbn. auto.
  - exists silent_verdict. split; [|discriminate].
    apply smartCheckAnswer_silent. now rewrite E.
  - exists (fallback_verdict accepted answer). split.
    + apply smartCheckAnswer_unusable. now rewrite E.
    + cbn. auto.
Qed.

(** X1. [smartCheckAnswer] never rejects: whatever the backend does, it
    resolves to a verdict after exactly one request and without
    touching any component state. The verdict says correct only when
    the oracle's own parsed verdict is that verdict, or when the
    containment heuristic accepts the answer. *)
Theorem smartCheckAnswer_always_resolves
        (S : Type) (w : jsstring) (accepted : list jsstring) (answer : jsstring)
        (env : Request -> Settled GenerateContentResponse) (s : S) :
  exists v,
    run env (geminiService.smartCheckAnswer w accepted answer) s =
      (s, Fulfilled v, [CheckPrompt w accepted answer]) /\
    (geminiService.isCorrect v = true ->
     Session.containment accepted answer = true \/
     exists response t,
       env (CheckPrompt w accepted answer) = Fulfilled response /\
       text response = Some t /\
       geminiService.JSON_parse_verdict t = Some v).
Proof. apply smartCheckAnswer_run. Qed.

(** X2. [fetchWordBatch] sends one request and touches no state. It
    rejects exactly when the call rejects, with the backend's own error,
    or when a text that is not empty fails to parse, with the parser's
    error; a text that parses is the batch, whatever its length. *)
Theorem fetchWordBatch_settles
        (S : Type) (level : VocabularyLevel) (count : nat)
        (env : Request -> Settled GenerateContentResponse) (s : S) :
  exists r,
    run env (geminiService.fetchWordBatch level count) s =
      (s, r, [WordsPrompt level count]) /\
    (forall e, env (WordsPrompt level count) = Rejected e -> r = Rejected e) /\
    (forall response t,
       env (WordsPrompt level count) = Fulfilled response ->
       text response = Some t -> t <> [] ->
       r = match geminiService.JSON_parse_words t with
           | Some batch => Fulfilled batch
           | None => Rejected SyntaxError
           end) /\
    (forall e, r = Rejected e ->
       env (WordsPrompt level count) = Rejected e \/
       e = SyntaxError /\
       exists response t,
         env (WordsPrompt level count) = Fulfilled response /\
         text response = Some t /\ t <> [] /\
         geminiService.JSON_parse_words t = None).
Proof.
  unfold geminiService.fetchWordBatch. cbn.
  destruct (env (WordsPrompt level count)) as [[[t|]]|e] eqn:E; cbn.
  - destruct t as [|d t]; cbn.
    + eexists. split; [reflexivity|]. repeat split; try discriminate.
      intros response t H. injection H as <-. cbn. intros H. injection H as <-.
      congruence.
    + destruct (geminiService.JSON_parse_words (d :: t)) as [batch|] eqn:P; cbn.
      * eexists. split; [reflexivity|]. repeat split; try discriminate.
        intros response t' H. injection H as <-. cbn. intros H. injection H as <-.
        now rewrite P.
      * eexists. split; [reflexivity|]. repeat split; try discriminate.
        -- intros response t' H. injection H as <-. cbn. intros H. injection H as <-.
           now rewrite P.
        -- intros e H. injection H as <-. right. split; trivial.
           exists {| text := Some (d :: t) |}, (d :: t). repeat split; trivial.
           discriminate.
  - eexists. split; [reflexivity|]. repeat split; try discriminate.
    intros response t H. injection H as <-. discriminate.
  - eexists. split; [reflexivity|]. repeat split; try discriminate.
    + intros e' H. now injection H as <-.
    + intros e' H. injection H as <-. now left.
Qed.

End ServiceSettles.

(* ================================================================== *)
(** * More of the card: every submission ends with a result *)
(* ================================================================== *)

Section Submission.
Context {J : geminiService.JSON}.

(** How the handler ends on an answer that is not blank. *)
Lemma handleSubmit_run (wordData : WordItem) (input : jsstring) env
      (c : QuizCard.Hooks) :
  trim input <> [] ->
  (Session.containment (meanings wordData) (trim input) = true /\
   run env (QuizCard.handleSubmit wordData input) c =
     (accepted_locally input c, Fulfilled tt, [])) \/
  (Session.containment (meanings wordData) (trim input) = false /\
   exists v,
     (forall s : QuizCard.Hooks,
        run env (geminiService.smartCheckAnswer
                   (word wordData) (meanings wordData) (trim input)) s =
        (s, Fulfilled v,
         [CheckPrompt (word wordData) (meanings wordData) (trim input)])) /\
     run env (QuizCard.handleSubmit wordData input) c =
       ({| QuizCard.input := QuizCard.input c;
           QuizCard.isChecking := false;
           QuizCard.result :=
             Some {| isCorrect := geminiService.isCorrect v;
                     userAnswer := trim input;
                     explanation := Some (geminiService.explanation v) |} |},
        Fulfilled tt,
        [CheckPrompt (word wordData) (meanings wordData) (trim input)])).
Proof.
  intros Hne.
  destruct (Session.containment (meanings wordData) (trim input)) eqn:Hm.
  - left. split; trivial. apply handleSubmit_local; trivial.
    now apply truthy_nonempty.
  - right. split; trivial.
    destruct (smartCheckAnswer_run QuizCard.Hooks (word wordData) (meanings wordData)
                (trim input) env c) as [v [Hv _]].
    assert (Hall : forall s : QuizCard.Hooks,
              run env (geminiService.smartCheckAnswer
                         (word wordData) (meanings wordData) (trim input)) s =
              (s, Fulfilled v,
               [CheckPrompt (word wordData) (meanings wordData) (trim input)])).
    { intros s.
      destruct (smartCheckAnswer_run QuizCard.Hooks (word wordData)
                  (meanings wordData) (trim input) env s) as [v' [Hv' _]].
      rewrite Hv'. f_equal. f_equal.
      (* the verdict does not depend on the state *)
      clear - Hv Hv'. unfold geminiService.smartCheckAnswer in *. cbn in *.
      destruct (env (CheckPrompt (word wordData) (meanings wordData) (trim input)))
        as [[[t|]]|e]; cbn in *; try congruence.
      destruct t as [|d t]; cbn in *; try congruence.
      destruct (geminiService.JSON_parse_verdict (d :: t)); cbn in *; congruence. }
    exists v. split; trivial.
    rewrite (handleSubmit_verify wordData input env c _ _ Hne
               (verify_oracle wordData input env _ v _ Hm Hall)).
    reflexivity.
Qed.


(** X4. When the local tier finds no containment and the oracle answers
    with a text that parses, the oracle's verdict goes on the card as it
    is, correct or not, after exactly one request. *)
Theorem oracle_verdict_is_shown_verbatim
        (wordData : WordItem) (input : jsstring)
        (env : Request -> Settled GenerateContentResponse) (c : QuizCard.Hooks)
        (t : jsstring) (v : geminiService.Verdict) :
  trim input <> [] ->
  Session.containment (meanings wordData) (trim input) = false ->
  env (CheckPrompt (word wordData) (meanings wordData) (trim input)) =
    Fulfilled {| text := Some t |} ->
  t <> [] ->
  geminiService.JSON_parse_verdict t = Some v ->
  run env (QuizCard.handleSubmit wordData input) c =
    ({| QuizCard.input := QuizCard.input c;
        QuizCard.isChecking := false;
        QuizCard.result :=
          Some {| isCorrect := geminiService.isCorrect v;
                  userAnswer := trim input;
                  explanation := Some (geminiService.explanation v) |} |},
     Fulfilled tt,
     [CheckPrompt (word wordData) (meanings wordData) (trim input)]).
Proof.
  intros Hne Hm He Ht Hp.
  rewrite (handleSubmit_verify wordData input env c _ _ Hne
             (verify_oracle wordData input env _ v _ Hm
                (fun s => smartCheckAnswer_verdict _ _ _ _ env s t v He Ht Hp))).
  reflexivity.
Qed.

(** X5. A word without accepted meanings can never be matched locally:
    every answer that is not blank goes to the oracle, once; and if the
    oracle then fails or says nothing, the answer counts as wrong. *)
Theorem no_meanings_no_local_match
        (wordData : WordItem) (input : jsstring)
        (env : Request -> Settled GenerateContentResponse) (c : QuizCard.Hooks) :
  meanings wordData = [] ->
  trim input <> [] ->
  exists r,
    run env (QuizCard.handleSubmit wordData input) c =
      ({| QuizCard.input := QuizCard.input c;
          QuizCard.isChecking := false;
          QuizCard.result := Some r |},
       Fulfilled tt, [CheckPrompt (word wordData) [] (trim input)]) /\
    (Session.oracle_unusable (env (CheckPrompt (word wordData) [] (trim input))) ||
     Session.silent (env (CheckPrompt (word wordData) [] (trim input))) = true ->
     isCorrect r = false).
Proof.
  intros Hnil Hne.
  destruct (handleSubmit_run wordData input env c Hne) as [[Hm E]|[Hm [v [Hv E]]]].
  - rewrite Hnil in Hm. discriminate.
  - rewrite E, Hnil. eexists. split; [reflexivity|]. cbn.
    intros H. specialize (Hv c). rewrite Hnil in Hv.
    apply orb_true_iff in H. destruct H as [H|H].
    + rewrite (smartCheckAnswer_unusable _ _ _ _ env c H) in Hv.
      injection Hv as <-. reflexivity.
    + rewrite (smartCheckAnswer_silent _ _ _ _ env c H) in Hv.
      injection Hv as <-. reflexivity.
Qed.

End Submission.


Lemma oracle_verdict_witness :
  run Sample.helpful
      (QuizCard.handleSubmit (J := Sample.runtime) Sample.fruit Sample.guoshi)
      QuizCard.mounted =
    ({| QuizCard.input := []; QuizCard.isChecking := false;
        QuizCard.result :=
          Some {| isCorrect := true; userAnswer := trim Sample.guoshi;
                  explanation := Some (lit "ok") |} |},
     Fulfilled tt,
     [CheckPrompt (word Sample.fruit) (meanings Sample.fruit) (trim Sample.guoshi)]).
Proof.
  apply (oracle_verdict_is_shown_verbatim (J := Sample.runtime)
           Sample.fruit Sample.guoshi Sample.helpful QuizCard.mounted
           Sample.verdict_text
           {| geminiService.isCorrect := true;
              geminiService.explanation := lit "ok" |});
    try reflexivity; discriminate.
Defined.

Lemma no_meanings_witness :
  exists r,
    run Sample.offline
        (QuizCard.handleSubmit (J := Sample.runtime) bare Sample.juzi)
        QuizCard.mounted =
      ({| QuizCard.input := []; QuizCard.isChecking := false;
          QuizCard.result := Some r |},
       Fulfilled tt, [CheckPrompt (word bare) [] (trim Sample.juzi)]) /\
    (Session.oracle_unusable (J := Sample.runtime)
       (Sample.offline (CheckPrompt (word bare) [] (trim Sample.juzi))) ||
     Session.silent (Sample.offline (CheckPrompt (word bare) [] (trim Sample.juzi)))
     = true ->
     isCorrect r = false).
Proof.
  apply (no_meanings_no_local_match (J := Sample.runtime)
           bare Sample.juzi Sample.offline QuizCard.mounted).
  - reflexivity.
  - discriminate.
Defined.

(* ================================================================== *)
(** * More of App.tsx: the course of a session *)
(* ================================================================== *)

(** X6. Along every history of a fresh session the streak never exceeds
    the score, and the score never exceeds the number of answers. *)
Theorem streak_below_score (batch : list WordItem) (outcomes : list bool) :
  streak (Session.play outcomes (Session.fresh batch)) <=
    score (Session.play outcomes (Session.fresh batch)) /\
  score (Session.play outcomes (Session.fresh batch)) <=
    totalAnswered (Session.play outcomes (Session.fresh batch)).
Proof.
  induction outcomes as [|b l IH] using rev_ind.
  - cbn. lia.
  - rewrite play_snoc.
    destruct (handleNextWord_counts b (Session.play l (Session.fresh batch)))
      as [_ [Ht [Hs Hk]]].
    rewrite Ht, Hs, Hk. destruct b; lia.
Qed.

(** X7. A session over a batch that is not empty never shows an empty
    game screen: until it is finished the current word exists, so the
    card is on screen, and the counter above it reads a word number
    between 1 and the length of the batch, one more than the number of
    answers so far. *)
Theorem running_session_shows_a_card (batch : list WordItem) (q : QuizState) :
  batch <> [] ->
  Session.reachable batch q ->
  isFinished q = false ->
  Session.cardOnScreen q = true /\
  App.currentWord q = nth_error batch (totalAnswered q) /\
  1 <= wordNumber q <= List.length (words q) /\
  wordNumber q = totalAnswered q + 1.
Proof.
  intros Hne Hr Hf.
  destruct (reachable_invariant batch q Hr) as [Hw Hs Ht Hrun _].
  destruct (Hrun Hf) as [Hi Hroom]. specialize (Hroom Hne).
  unfold Session.cardOnScreen, App.currentWord, wordNumber.
  rewrite Hf, Hw, Hi. cbn. repeat split; try lia.
  destruct (nth_error batch (totalAnswered q)) eqn:N; trivial.
  apply nth_error_None in N. lia.
Qed.

Lemma running_session_witness :
  Session.cardOnScreen
    (App.handleNextWord true (Session.fresh [Sample.fruit; Sample.orange])) = true /\
  App.currentWord
    (App.handleNextWord true (Session.fresh [Sample.fruit; Sample.orange])) =
    nth_error [Sample.fruit; Sample.orange]
      (totalAnswered
         (App.handleNextWord true (Session.fresh [Sample.fruit; Sample.orange]))) /\
  1 <= wordNumber
         (App.handleNextWord true (Session.fresh [Sample.fruit; Sample.orange]))
    <= List.length
         (words (App.handleNextWord true
                   (Session.fresh [Sample.fruit; Sample.orange]))) /\
  wordNumber (App.handleNextWord true (Session.fresh [Sample.fruit; Sample.orange])) =
    totalAnswered
      (App.handleNextWord true (Session.fresh [Sample.fruit; Sample.orange])) + 1.
Proof.
  apply (running_session_shows_a_card [Sample.fruit; Sample.orange]
           (App.handleNextWord true (Session.fresh [Sample.fruit; Sample.orange]))).
  - discriminate.
  - apply Session.reach_next; [apply Session.reach_fresh | reflexivity].
  - reflexivity.
Defined.

(** X8. A session ends with the answer to its last word and not
    before: after fewer answers than the batch has words the quiz is
    not finished and stands on the word with that index; after as many
    answers as the batch has words it is finished. *)
Theorem session_ends_with_the_last_word
        (batch : list WordItem) (outcomes : list bool) :
  batch <> [] ->
  (List.length outcomes < List.length batch ->
   isFinished (Session.play outcomes (Session.fresh batch)) = false /\
   currentWordIndex (Session.play outcomes (Session.fresh batch)) =
     List.length outcomes) /\
  (List.length outcomes = List.length batch ->
   isFinished (Session.play outcomes (Session.fresh batch)) = true).
Proof.
  intros Hne. split; intros Hlen.
  - assert (Hr : Session.reachable batch (Session.play outcomes (Session.fresh batch)))
      by (apply play_reachable; lia).
    destruct (reachable_invariant _ _ Hr) as [_ _ _ Hrun Hfin].
    destruct (play_counts outcomes (Session.fresh batch)) as [Hn _]. cbn in Hn.
    destruct (isFinished (Session.play outcomes (Session.fresh batch))).
    + destruct Hfin as [_ Hfin]; trivial. lia.
    + destruct Hrun as [Hi _]; trivial. split; trivial. lia.
  - assert (Hr : Session.reachable batch (Session.play outcomes (Session.fresh batch)))
      by (apply play_reachable; lia).
    destruct (reachable_invariant _ _ Hr) as [_ _ _ Hrun _].
    destruct (play_counts outcomes (Session.fresh batch)) as [Hn _]. cbn in Hn.
    destruct (isFinished (Session.play outcomes (Session.fresh batch))); trivial.
    destruct Hrun as [_ Hroom]; trivial. specialize (Hroom Hne). lia.
Qed.

Lemma session_end_witness :
  (List.length [true; false] < List.length [Sample.fruit; Sample.orange] ->
   isFinished (Session.play [true; false]
                 (Session.fresh [Sample.fruit; Sample.orange])) = false /\
   currentWordIndex (Session.play [true; false]
                       (Session.fresh [Sample.fruit; Sample.orange])) =
     List.length [true; false]) /\
  (List.length [true; false] = List.length [Sample.fruit; Sample.orange] ->
   isFinished (Session.play [true; false]
                 (Session.fresh [Sample.fruit; Sample.orange])) = true).
Proof.
  apply (session_ends_with_the_last_word [Sample.fruit; Sample.orange] [true; false]).
  discriminate.
Defined.

Lemma isLast_spec (b : bool) (q : QuizState) :
  Session.cardOnScreen q = true ->
  isFinished (App.handleNextWord b q) = isLast q /\
  (isLast q = false ->
   currentWordIndex (App.handleNextWord b q) = currentWordIndex q + 1 /\
   Session.cardOnScreen (App.handleNextWord b q) = true).
Proof.
  intros Hc. apply cardOnScreen_inv in Hc. destruct Hc as [Hf Hlt].
  unfold isLast.
  destruct (le_lt_dec (List.length (words q)) (currentWordIndex q + 1)) as [H|H].
  - rewrite (handleNextWord_last b q H). cbn.
    assert (E : (Z.of_nat (currentWordIndex q) =?
                 Z.of_nat (List.length (words q)) - 1)%Z = true)
      by (apply Z.eqb_eq; lia).
    rewrite E. split; [reflexivity | discriminate].
  - rewrite (handleNextWord_inner b q H). cbn.
    assert (E : (Z.of_nat (currentWordIndex q) =?
                 Z.of_nat (List.length (words q)) - 1)%Z = false)
      by (apply Z.eqb_neq; lia).
    rewrite E. split; [exact Hf|]. intros _. split; [reflexivity|].
    unfold Session.cardOnScreen, App.currentWord. cbn. rewrite Hf. cbn.
    destruct (nth_error (words q) (currentWordIndex q + 1)) eqn:N; trivial.
    apply nth_error_None in N. lia.
Qed.

(** X9. The card's button tells the truth: while the card is on
    screen, the button reads Finish Quiz ([isLast]) exactly when a click
    on it finishes the quiz, and otherwise the click moves to the next
    word, which exists. *)
Theorem isLast_announces_the_end (b : bool) (q : QuizState) :
  Session.cardOnScreen q = true ->
  isFinished (App.handleNextWord b q) = isLast q /\
  (isLast q = false ->
   currentWordIndex (App.handleNextWord b q) = currentWordIndex q + 1 /\
   Session.cardOnScreen (App.handleNextWord b q) = true).
Proof. apply isLast_spec. Qed.

Lemma isLast_witness :
  isFinished (App.handleNextWord false (Session.fresh [Sample.fruit; Sample.orange])) =
    isLast (Session.fresh [Sample.fruit; Sample.orange]) /\
  (isLast (Session.fresh [Sample.fruit; Sample.orange]) = false ->
   currentWordIndex
     (App.handleNextWord false (Session.fresh [Sample.fruit; Sample.orange])) =
     currentWordIndex (Session.fresh [Sample.fruit; Sample.orange]) + 1 /\
   Session.cardOnScreen
     (App.handleNextWord false (Session.fresh [Sample.fruit; Sample.orange])) = true).
Proof.
  apply (isLast_announces_the_end false (Session.fresh [Sample.fruit; Sample.orange])).
  reflexivity.
Defined.

(** X10. Whatever state it is called on, [handleNextWord] leaves the
    batch alone, never clears [isFinished], moves the index by at most
    one and never off the end of the batch. *)
Theorem handleNextWord_stays_in_bounds (b : bool) (q : QuizState) :
  words (App.handleNextWord b q) = words q /\
  (isFinished q = true -> isFinished (App.handleNextWord b q) = true) /\
  currentWordIndex q <= currentWordIndex (App.handleNextWord b q)
                     <= currentWordIndex q + 1 /\
  (currentWordIndex q < List.length (words q) ->
   currentWordIndex (App.handleNextWord b q) < List.length (words q)).
Proof.
  destruct (le_lt_dec (List.length (words q)) (currentWordIndex q + 1)) as [H|H].
  - rewrite (handleNextWord_last b q H). cbn. repeat split; auto; lia.
  - rewrite (handleNextWord_inner b q H). cbn. repeat split; auto; lia.
Qed.

(* ================================================================== *)
(** * More of the interface: what every reachable screen satisfies *)
(* ================================================================== *)

Section Screens.
Context {J : geminiService.JSON}.

Lemma startGame_resumes_to k :
  from_startGame k ->
  forall r a, exists a',
    sync (k r) a = (a', Settles (Fulfilled tt)) /\
    ((exists batch,
        a' = {| App.loadingState := READY; App.selectedLevel := App.selectedLevel a;
                App.quizState := Session.fresh batch;
                App.errorMsg := App.errorMsg a |}) \/
     a' = {| App.loadingState := ERROR; App.selectedLevel := App.selectedLevel a;
             App.quizState := App.quizState a;
             App.errorMsg := App.generation_failed |}).
Proof.
  intros [level [a0 [req H]]] r a. cbn in H. injection H as _ <-.
  destruct r as [[[t|]]|e]; cbn.
  - destruct t as [|c t]; cbn.
    + eexists; split; [reflexivity | left; now exists []].
    + destruct (geminiService.JSON_parse_words (c :: t)) as [batch|]; cbn;
        eexists; (split; [reflexivity|]); [left; now exists batch | now right].
  - eexists; split; [reflexivity | left; now exists []].
  - eexists; split; [reflexivity | now right].
Qed.

Lemma handleSubmit_resumes_to w k :
  from_handleSubmit w k ->
  forall r c, exists res,
    sync (k r) c =
    ({| QuizCard.input := QuizCard.input c; QuizCard.isChecking := false;
        QuizCard.result := Some res |}, Settles (Fulfilled tt)).
Proof.
  intros [input [c0 [req H]]] r c.
  unfold QuizCard.handleSubmit, QuizCard.verify in H.
  destruct (truthy (trim input)); cbn in H; [|discriminate].
  destruct (existsb _ (meanings w)); cbn in H; [discriminate|].
  injection H as _ <-.
  destruct r as [[[t|]]|e]; cbn.
  - destruct t as [|d t]; cbn.
    + eexists; reflexivity.
    + destruct (geminiService.JSON_parse_verdict (d :: t)); cbn; eexists; reflexivity.
  - eexists; reflexivity.
  - eexists; reflexivity.
Qed.

Lemma handleSubmit_sync_cases (w : WordItem) (input : jsstring) (c : QuizCard.Hooks) :
  sync (QuizCard.handleSubmit w input) c = (c, Settles (Fulfilled tt)) \/
  sync (QuizCard.handleSubmit w input) c =
    (accepted_locally input c, Settles (Fulfilled tt)) \/
  (exists req k, sync (QuizCard.handleSubmit w input) c =
                 (QuizCard.setIsChecking true c, Suspends req k)).
Proof.
  unfold QuizCard.handleSubmit, QuizCard.verify.
  destruct (truthy (trim input)); cbn.
  - destruct (existsb _ (meanings w)); cbn.
    + right. left. reflexivity.
    + right. right. do 2 eexists. reflexivity.
  - left. reflexivity.
Qed.

Lemma cardShown_cardOnScreen (a : App.Hooks) (w : WordItem) :
  App.cardShown a = Some w -> Session.cardOnScreen (App.quizState a) = true.
Proof.
  unfold App.cardShown, App.screen, Session.cardOnScreen.
  destruct (App.loadingState a); try discriminate.
  destruct (isFinished (App.quizState a)); try discriminate.
  intros ->. reflexivity.
Qed.

Lemma render_none (changed : bool) (a : App.Hooks) (c : option Card.Instance) :
  UI.render changed a c = None -> App.cardShown a = None.
Proof.
  unfold UI.render. destruct (App.cardShown a); trivial. now destruct c.
Qed.

Lemma started_ui_ok (u : UI.State) (level : VocabularyLevel) :
  UI.fetches u = [] ->
  ui_ok (UI.started u (sync (App.startGame level) (UI.app u))).
Proof.
  intros Hf. destruct (startGame_suspends level (UI.app u)) as [k E].
  rewrite E. unfold UI.started. rewrite Hf.
  constructor; cbn [UI.app UI.card UI.fetches App.loadingState App.errorMsg].
  - split; [discriminate | reflexivity].
  - reflexivity.
  - discriminate.
  - reflexivity.
  - intros i. rewrite render_hidden by reflexivity. discriminate.
Qed.

Lemma step_keeps_ui_ok (e : UI.Event) (u u' : UI.State) :
  fetches_ok u -> card_ok u -> ui_ok u -> UI.step e u = Some u' -> ui_ok u'.
Proof.
  intros Hf Hc [Hl He Hs Hm Hp] Hstep. destruct e; cbn in Hstep.
  - (* a level button *)
    destruct (App.screen (UI.app u)) eqn:Es; try discriminate.
    destruct (App.levelButtonsEnabled (UI.app u)) eqn:Eb; try discriminate.
    injection Hstep as <-. apply started_ui_ok.
    apply no_fetch_unless_loading; trivial.
    unfold App.levelButtonsEnabled in Eb.
    destruct (App.loadingState (UI.app u)); discriminate.
  - (* the batch arrives, or fails to *)
    destruct (Card.take_nth n (UI.fetches u)) as [[k rest]|] eqn:Et; try discriminate.
    injection Hstep as <-. unfold fetches_ok in Hf.
    destruct (UI.fetches u) as [|k0 [|k1 l]] eqn:Ef; try contradiction.
    + destruct n; discriminate.
    + apply take_nth_single in Et. destruct Et as [-> ->].
      destruct Hf as [Hload Hk].
      destruct (startGame_resumes_to k0 Hk r (UI.app u)) as [a' [E Ha']].
      rewrite E. unfold UI.started. cbn [UI.app UI.card UI.fetches].
      rewrite Hload in He.
      assert (Hcard : UI.card u = None).
      { destruct (UI.card u) as [i|] eqn:Ec; trivial.
        pose proof (card_needs_ready u i Hc Ec). congruence. }
      rewrite Hcard.
      constructor; cbn [UI.app UI.card UI.fetches].
      * destruct Ha' as [[batch ->]| ->]; cbn; split; intros; congruence.
      * destruct Ha' as [[batch ->]| ->]; cbn; trivial.
      * destruct Ha' as [[batch ->]| ->]; cbn; [|discriminate].
        intros _. apply Session.reach_fresh.
      * apply render_none.
      * intros i. unfold UI.render. destruct (App.cardShown a'); [|discriminate].
        intros H. injection H as <-. cbn. split; [|reflexivity].
        split; [discriminate | congruence].
  - (* typing *)
    destruct (UI.card u) as [i|] eqn:Ec; try discriminate.
    unfold Card.type in Hstep.
    destruct (QuizCard.phase (Card.hooks i)); try discriminate.
    injection Hstep as <-.
    constructor; cbn [UI.app UI.card UI.fetches]; trivial; try discriminate.
    intros i' H. injection H as <-. cbn. now apply Hp.
  - (* submitting *)
    destruct (UI.card u) as [i|] eqn:Ec; try discriminate.
    unfold Card.submit in Hstep.
    destruct (QuizCard.phase (Card.hooks i)) eqn:Ep; try discriminate.
    destruct (QuizCard.submitDisabled (Card.hooks i)) eqn:Ed; try discriminate.
    unfold QuizCard.submitDisabled in Ed. apply orb_false_iff in Ed.
    destruct Ed as [_ Ed].
    destruct (Hp i eq_refl) as [Hsp Hres].
    assert (Hn : Card.pending i = []).
    { destruct (Card.pending i); trivial.
      assert (QuizCard.isChecking (Card.hooks i) = true) by (apply Hsp; discriminate).
      congruence. }
    assert (Hr : QuizCard.result (Card.hooks i) = None).
    { unfold QuizCard.phase in Ep.
      now destruct (QuizCard.result (Card.hooks i)). }
    rewrite Hn in Hstep.
    destruct (handleSubmit_sync_cases (Card.wordData i) (QuizCard.input (Card.hooks i))
                                      (Card.hooks i)) as [E|[E|[req [k E]]]];
      rewrite E in Hstep; cbn in Hstep; injection Hstep as <-;
      constructor; cbn [UI.app UI.card UI.fetches]; trivial; try discriminate;
      intros i' H; injection H as <-; cbn.
    + split; [|apply Hres]. rewrite Ed. split; [discriminate | congruence].
    + split; [split; [discriminate | congruence] | reflexivity].
    + split; [split; [discriminate | reflexivity] | congruence].
  - (* a verdict arrives, or fails to *)
    destruct (UI.card u) as [i|] eqn:Ec; try discriminate.
    unfold Card.settle in Hstep.
    destruct (Card.take_nth n (Card.pending i)) as [[p rest]|] eqn:Et; try discriminate.
    unfold card_ok in Hc. rewrite Ec in Hc. destruct Hc as [_ Hpend].
    unfold pending_ok in Hpend.
    destruct (Card.pending i) as [|p0 [|p1 l]]; try contradiction.
    + destruct n; discriminate.
    + apply take_nth_single in Et. destruct Et as [-> ->].
      destruct Hpend as [_ Hk].
      destruct (handleSubmit_resumes_to _ _ Hk r (Card.hooks i)) as [res E].
      rewrite E in Hstep. cbn in Hstep. injection Hstep as <-.
      constructor; cbn [UI.app UI.card UI.fetches]; trivial; try discriminate.
      intros i' H. injection H as <-. cbn.
      split; [split; [discriminate | congruence] | reflexivity].
  - (* Continue *)
    destruct (UI.card u) as [i|] eqn:Ec; try discriminate.
    destruct (Card.continue i) as [b|] eqn:Eb; try discriminate.
    injection Hstep as <-.
    unfold card_ok in Hc. rewrite Ec in Hc. destruct Hc as [Hshown _].
    destruct (Hp i eq_refl) as [Hsp Hres].
    assert (Hn : Card.pending i = []).
    { destruct (Card.pending i); trivial.
      assert (QuizCard.isChecking (Card.hooks i) = true) by (apply Hsp; discriminate).
      unfold Card.continue, QuizCard.handleContinue in Eb.
      destruct (QuizCard.result (Card.hooks i)) eqn:R; [|discriminate].
      assert (QuizCard.isChecking (Card.hooks i) = false)
        by (apply Hres; discriminate).
      congruence. }
    constructor; cbn [UI.app UI.card UI.fetches]; trivial.
    + intros Hready.
      destruct (handleNextWord_counts b (App.quizState (UI.app u))) as [Hw _].
      cbn. rewrite Hw. apply Session.reach_next.
      * now apply Hs.
      * now apply (cardShown_cardOnScreen _ _ Hshown).
    + apply render_none.
    + intros i'. unfold UI.render.
      destruct (App.cardShown (App.setQuizState (App.handleNextWord b) (UI.app u)));
        [|discriminate].
      intros H. injection H as <-. cbn. rewrite Hn.
      split; [split; [discriminate | congruence] | reflexivity].
  - (* Back to Menu *)
    destruct (App.screen (UI.app u)) eqn:Es; try discriminate.
    injection Hstep as <-.
    assert (Hready : App.loadingState (UI.app u) = READY).
    { unfold App.screen in Es. destruct (App.loadingState (UI.app u));
        try discriminate. reflexivity. }
    rewrite Hready in He.
    constructor; cbn; trivial; try discriminate.
    split; [discriminate|]. intros H. apply Hl in H. congruence.
  - (* Play Again *)
    destruct (App.screen (UI.app u)) eqn:Es; try discriminate.
    injection Hstep as <-. apply started_ui_ok.
    apply no_fetch_unless_loading; trivial.
    unfold App.screen in Es. destruct (App.loadingState (UI.app u)); discriminate.
Qed.

Lemma steps_keep_all (es : list UI.Event) (u u' : UI.State) :
  fetches_ok u -> card_ok u -> ui_ok u -> UI.steps es u = Some u' ->
  fetches_ok u' /\ card_ok u' /\ ui_ok u'.
Proof.
  revert u. induction es as [|e es IH]; intros u Hf Hc Hu Hs; cbn in Hs.
  - injection Hs as <-. auto.
  - destruct (UI.step e u) as [u1|] eqn:E; [|discriminate].
    destruct (step_preserves e u u1 Hf Hc E) as [Hf1 Hc1].
    pose proof (step_keeps_ui_ok e u u1 Hf Hc Hu E) as Hu1.
    now apply (IH u1).
Qed.

Lemma reachable_all (u : UI.State) :
  UI.reachable u -> fetches_ok u /\ card_ok u /\ ui_ok u.
Proof.
  intros [es H]. apply (steps_keep_all es UI.initial u); trivial.
  - exact I.
  - exact I.
  - constructor; cbn; trivial; try discriminate.
    split; [discriminate | congruence].
Qed.

End Screens.

Section ScreenProperties.
Context {J : geminiService.JSON}.

(** X11. The application is in the LOADING state exactly while a
    [startGame] call is waiting for the backend; there is never more
    than one such call, and while it waits the home screen is shown
    with its level buttons disabled and no card is mounted. *)
Theorem loading_means_one_fetch (u : UI.State) :
  UI.reachable u ->
  (App.loadingState (UI.app u) = LOADING <-> UI.fetches u <> []) /\
  List.length (UI.fetches u) <= 1 /\
  (UI.fetches u <> [] ->
   App.screen (UI.app u) = App.Home /\
   App.levelButtonsEnabled (UI.app u) = false /\
   UI.card u = None).
Proof.
  intros H. destruct (reachable_all u H) as [Hf [Hc [Hl _ _ _ _]]].
  split; trivial. split.
  - unfold fetches_ok in Hf.
    destruct (UI.fetches u) as [|k [|k' l]]; cbn; [lia | lia | contradiction].
  - intros Hne. apply Hl in Hne.
    unfold App.screen, App.levelButtonsEnabled. rewrite Hne. repeat split.
    destruct (UI.card u) as [i|] eqn:Ec; trivial.
    pose proof (card_needs_ready u i Hc Ec). congruence.
Qed.

(** X12. The failure message is on screen exactly in the ERROR state:
    there the message is the fixed failure text, and in every other
    state it is empty. *)
Theorem error_message_only_after_a_failure (u : UI.State) :
  UI.reachable u ->
  App.errorMsg (UI.app u) =
  match App.loadingState (UI.app u) with
  | ERROR => App.generation_failed
  | _ => []
  end.
Proof.
  intros H. now destruct (reachable_all u H) as [_ [_ [_ He _ _ _]]].
Qed.

(** X13. The spinner on the card is on exactly while a check is
    waiting for the oracle, and a card that shows a result has neither
    spinner nor waiting check. *)
Theorem spinner_means_pending_check (u : UI.State) :
  UI.reachable u ->
  match UI.card u with
  | None => True
  | Some i =>
      (QuizCard.isChecking (Card.hooks i) = true <-> Card.pending i <> []) /\
      (QuizCard.result (Card.hooks i) <> None ->
       QuizCard.isChecking (Card.hooks i) = false /\ Card.pending i = [])
  end.
Proof.
  intros H. destruct (reachable_all u H) as [_ [_ [_ _ _ _ Hp]]].
  destruct (UI.card u) as [i|]; trivial.
  destruct (Hp i eq_refl) as [Hsp Hres]. split; trivial.
  intros Hr. specialize (Hres Hr). split; trivial.
  destruct (Card.pending i); trivial.
  assert (QuizCard.isChecking (Card.hooks i) = true) by (apply Hsp; discriminate).
  congruence.
Qed.

(** X14. Whenever the application is READY, its quiz state is a state
    of a session over the batch it holds: it was installed by
    [startGame] and advanced only by Continue clicks on a card. A card
    is mounted exactly when [renderGame] produces one, and it shows the
    current word. *)
Theorem ready_state_is_a_session_state (u : UI.State) :
  UI.reachable u ->
  (App.loadingState (UI.app u) = READY ->
   Session.reachable (words (App.quizState (UI.app u))) (App.quizState (UI.app u))) /\
  option_map Card.wordData (UI.card u) = App.cardShown (UI.app u).
Proof.
  intros H. destruct (reachable_all u H) as [_ [Hc [_ _ Hs Hm _]]].
  split; trivial.
  unfold card_ok in Hc. destruct (UI.card u) as [i|].
  - destruct Hc as [Hc _]. now rewrite Hc.
  - now rewrite Hm.
Qed.

(** X15. Continue is available exactly when the card shows a result.
    It hands the correctness of that result to [handleNextWord]; on the
    last word the card goes away (the result screen follows), otherwise
    the card is back in its initial state on the next word of the
    batch. *)
Theorem continue_moves_on (u : UI.State) :
  UI.reachable u ->
  match UI.card u with
  | None => UI.step UI.ClickContinue u = None
  | Some i =>
      match QuizCard.result (Card.hooks i) with
      | None => UI.step UI.ClickContinue u = None
      | Some r =>
          UI.step UI.ClickContinue u =
          Some {| UI.app := App.setQuizState (App.handleNextWord (isCorrect r))
                                             (UI.app u);
                  UI.card :=
                    if isLast (App.quizState (UI.app u)) then None
                    else option_map Card.mount
                           (nth_error (words (App.quizState (UI.app u)))
                                      (currentWordIndex (App.quizState (UI.app u)) + 1));
                  UI.fetches := [] |} /\
          (isLast (App.quizState (UI.app u)) = true ->
           App.screen (App.setQuizState (App.handleNextWord (isCorrect r)) (UI.app u)) =
           App.Result) /\
          (isLast (App.quizState (UI.app u)) = false ->
           nth_error (words (App.quizState (UI.app u)))
                     (currentWordIndex (App.quizState (UI.app u)) + 1) <> None)
      end
  end.
Proof.
  intros H. destruct (reachable_all u H) as [Hf [Hc [Hl _ _ _ Hp]]].
  cbn [UI.step]. destruct (UI.card u) as [i|] eqn:Ec; trivial.
  unfold Card.continue, QuizCard.handleContinue.
  destruct (QuizCard.result (Card.hooks i)) as [r|] eqn:Er; trivial.
  unfold card_ok in Hc. rewrite Ec in Hc. destruct Hc as [Hshown _].
  destruct (cardShown_ready _ _ Hshown) as [Hready _].
  pose proof (cardShown_cardOnScreen _ _ Hshown) as Hon.
  assert (Hfetch : UI.fetches u = []).
  { apply no_fetch_unless_loading; trivial. congruence. }
  assert (Hpend : Card.pending i = []).
  { destruct (Hp i eq_refl) as [Hsp Hres].
    destruct (Card.pending i); trivial.
    assert (QuizCard.isChecking (Card.hooks i) = true) by (apply Hsp; discriminate).
    assert (QuizCard.isChecking (Card.hooks i) = false)
      by (apply Hres; congruence).
    congruence. }
  destruct (isLast_spec (isCorrect r) (App.quizState (UI.app u)) Hon) as [Hfin Hnext].
  assert (Hshown' :
            App.cardShown (App.setQuizState (App.handleNextWord (isCorrect r)) (UI.app u)) =
            if isLast (App.quizState (UI.app u)) then None
            else nth_error (words (App.quizState (UI.app u)))
                           (currentWordIndex (App.quizState (UI.app u)) + 1)).
  { unfold App.cardShown, App.screen. cbn. rewrite Hready, Hfin.
    destruct (isLast (App.quizState (UI.app u))); trivial.
    destruct Hnext as [Hidx _]; trivial.
    unfold App.currentWord. rewrite Hidx.
    destruct (handleNextWord_counts (isCorrect r) (App.quizState (UI.app u)))
      as [Hw _].
    now rewrite Hw. }
  split; [|split].
  - f_equal. unfold UI.render. rewrite Hshown', Hfetch.
    destruct (isLast (App.quizState (UI.app u))); trivial.
    destruct (nth_error _ _) as [w|]; trivial.
    cbn. unfold Card.newWord, Card.mount. now rewrite Hpend.
  - intros E. unfold App.screen. cbn. now rewrite Hready, Hfin, E.
  - intros E. destruct Hnext as [Hidx Hon']; trivial.
    unfold Session.cardOnScreen, App.currentWord in Hon'.
    apply andb_true_iff in Hon'. destruct Hon' as [_ Hon'].
    rewrite Hidx in Hon'.
    destruct (handleNextWord_counts (isCorrect r) (App.quizState (UI.app u)))
      as [Hw _].
    rewrite Hw in Hon'.
    now destruct (nth_error _ _).
Qed.

(** X16. Back to Menu exists on the result screen only, and from every
    reachable result screen it leads to the state the application
    started in, but for the selected level: IDLE, the initial quiz
    state, no message, no card, nothing waiting. *)
Theorem back_to_menu_starts_over (u : UI.State) :
  UI.reachable u ->
  UI.step UI.ClickBackToMenu u =
  match App.screen (UI.app u) with
  | App.Result =>
      Some {| UI.app := {| App.loadingState := IDLE;
                           App.selectedLevel := App.selectedLevel (UI.app u);
                           App.quizState := App.INITIAL_QUIZ_STATE;
                           App.errorMsg := [] |};
              UI.card := None;
              UI.fetches := [] |}
  | _ => None
  end.
Proof.
  intros H. destruct (reachable_all u H) as [Hf [_ [Hl He _ _ _]]].
  cbn [UI.step]. destruct (App.screen (UI.app u)) eqn:Es; trivial.
  assert (Hready : App.loadingState (UI.app u) = READY).
  { unfold App.screen in Es. destruct (App.loadingState (UI.app u));
      try discriminate. reflexivity. }
  rewrite Hready in He.
  rewrite (no_fetch_unless_loading u Hf) by congruence.
  cbn. unfold App.resetGame, App.setQuizState, App.setLoadingState. cbn.
  now rewrite He.
Qed.

End ScreenProperties.

Lemma after_reachable (es : list UI.Event) :
  UI.steps (J := Sample.runtime) es UI.initial <> None ->
  UI.reachable (J := Sample.runtime) (after es).
Proof.
  intros H. exists es. unfold after.
  now destruct (UI.steps es UI.initial).
Qed.

Lemma loading_witness :
  (App.loadingState (UI.app (after level_chosen)) = LOADING <->
   UI.fetches (after level_chosen) <> []) /\
  List.length (UI.fetches (after level_chosen)) <= 1 /\
  (UI.fetches (after level_chosen) <> [] ->
   App.screen (UI.app (after level_chosen)) = App.Home /\
   App.levelButtonsEnabled (UI.app (after level_chosen)) = false /\
   UI.card (after level_chosen) = None).
Proof.
  apply (loading_means_one_fetch (J := Sample.runtime) (after level_chosen)).
  apply after_reachable. discriminate.
Defined.

Lemma error_message_witness :
  App.errorMsg (UI.app (after fetch_failed)) =
  match App.loadingState (UI.app (after fetch_failed)) with
  | ERROR => App.generation_failed
  | _ => []
  end.
Proof.
  apply (error_message_only_after_a_failure (J := Sample.runtime) (after fetch_failed)).
  apply after_reachable. discriminate.
Defined.

Lemma spinner_witness :
  match UI.card waiting_for_the_oracle with
  | None => True
  | Some i =>
      (QuizCard.isChecking (Card.hooks i) = true <-> Card.pending i <> []) /\
      (QuizCard.result (Card.hooks i) <> None ->
       QuizCard.isChecking (Card.hooks i) = false /\ Card.pending i = [])
  end.
Proof.
  apply (spinner_means_pending_check (J := Sample.runtime) waiting_for_the_oracle).
  exists [UI.ClickLevel CET6;
          UI.FetchSettles 0 (Sample.helpful (WordsPrompt CET6 5));
          UI.TypeAnswer Sample.guoshi;
          UI.SubmitAnswer].
  reflexivity.
Defined.

Lemma ready_state_witness :
  (App.loadingState (UI.app (after first_answered)) = READY ->
   Session.reachable (words (App.quizState (UI.app (after first_answered))))
                     (App.quizState (UI.app (after first_answered)))) /\
  option_map Card.wordData (UI.card (after first_answered)) =
    App.cardShown (UI.app (after first_answered)).
Proof.
  apply (ready_state_is_a_session_state (J := Sample.runtime) (after first_answered)).
  apply after_reachable. discriminate.
Defined.

Lemma continue_witness :
  match UI.card (after first_answered) with
  | None => UI.step (J := Sample.runtime) UI.ClickContinue (after first_answered) = None
  | Some i =>
      match QuizCard.result (Card.hooks i) with
      | None =>
          UI.step (J := Sample.runtime) UI.ClickContinue (after first_answered) = None
      | Some r =>
          UI.step (J := Sample.runtime) UI.ClickContinue (after first_answered) =
          Some {| UI.app := App.setQuizState (App.handleNextWord (isCorrect r))
                                             (UI.app (after first_answered));
                  UI.card :=
                    if isLast (App.quizState (UI.app (after first_answered))) then None
                    else option_map Card.mount
                           (nth_error
                              (words (App.quizState (UI.app (after first_answered))))
                              (currentWordIndex
                                 (App.quizState (UI.app (after first_answered))) + 1));
                  UI.fetches := [] |} /\
          (isLast (App.quizState (UI.app (after first_answered))) = true ->
           App.screen (App.setQuizState (App.handleNextWord (isCorrect r))
                                        (UI.app (after first_answered))) =
           App.Result) /\
          (isLast (App.quizState (UI.app (after first_answered))) = false ->
           nth_error (words (App.quizState (UI.app (after first_answered))))
                     (currentWordIndex
                        (App.quizState (UI.app (after first_answered))) + 1) <> None)
      end
  end.
Proof.
  apply (continue_moves_on (J := Sample.runtime) (after first_answered)).
  apply after_reachable. discriminate.
Defined.

Lemma back_to_menu_witness :
  UI.step (J := Sample.runtime) UI.ClickBackToMenu (after quiz_done) =
  match App.screen (UI.app (after quiz_done)) with
  | App.Result =>
      Some {| UI.app := {| App.loadingState := IDLE;
                           App.selectedLevel := App.selectedLevel (UI.app (after quiz_done));
                           App.quizState := App.INITIAL_QUIZ_STATE;
                           App.errorMsg := [] |};
              UI.card := None;
              UI.fetches := [] |}
  | _ => None
  end.
Proof.
  apply (back_to_menu_starts_over (J := Sample.runtime) (after quiz_done)).
  apply after_reachable. discriminate.
Defined.

Section Progress.
Context {J : geminiService.JSON}.

(** X17. Nobody gets stuck on a card. On a card that waits for an
    answer, typing an answer that is not blank and submitting it is
    always possible, and it leads to a result: at once if the local
    tier accepts the answer, and otherwise as soon as the one call to
    the oracle settles, however it settles. *)
Theorem answer_reaches_a_result (u : UI.State) (i : Card.Instance) (s : jsstring) :
  UI.reachable u ->
  trim s <> [] ->
  UI.card u = Some i ->
  QuizCard.result (Card.hooks i) = None ->
  QuizCard.isChecking (Card.hooks i) = false ->
  exists u1,
    UI.steps [UI.TypeAnswer s; UI.SubmitAnswer] u = Some u1 /\
    (showsResult u1 = true \/
     forall r, exists u2,
       UI.step (UI.CheckSettles 0 r) u1 = Some u2 /\ showsResult u2 = true).
Proof.
  intros H Hne Ec Hr Hchk. destruct (reachable_all u H) as [_ [_ [_ _ _ _ Hp]]].
  destruct (Hp i Ec) as [Hsp _].
  assert (Hpend : Card.pending i = []).
  { destruct (Card.pending i); trivial.
    assert (QuizCard.isChecking (Card.hooks i) = true) by (apply Hsp; discriminate).
    congruence. }
  apply truthy_nonempty in Hne.
  cbn [UI.steps UI.step]. rewrite Ec.
  unfold Card.type, QuizCard.phase. rewrite Hr. cbn [UI.withCard UI.card].
  unfold Card.submit, QuizCard.phase, QuizCard.submitDisabled.
  cbn [Card.hooks Card.wordData Card.pending QuizCard.setInput QuizCard.result
       QuizCard.input QuizCard.isChecking].
  rewrite Hr, Hne, Hchk, Hpend. cbn [negb orb UI.withCard UI.app UI.fetches].
  unfold QuizCard.handleSubmit, QuizCard.verify. rewrite Hne.
  destruct (existsb _ (meanings (Card.wordData i))) eqn:Em.
  - eexists. split; [reflexivity|]. left. reflexivity.
  - eexists. split; [reflexivity|]. right. intros r.
    destruct r as [[[t|]]|e]; cbn.
    + destruct t as [|d t]; cbn.
      * eexists. split; reflexivity.
      * destruct (geminiService.JSON_parse_verdict (d :: t)); cbn;
          eexists; split; reflexivity.
    + eexists. split; reflexivity.
    + eexists. split; reflexivity.
Qed.

(** X18. The result screen is reached only with a batch that is not
    empty and with every word answered: there the number of answers is
    the length of the batch and the score is at most that, so the
    accuracy is never a division by zero. *)
Theorem result_screen_has_a_full_batch (u : UI.State) :
  UI.reachable u ->
  App.screen (UI.app u) = App.Result ->
  words (App.quizState (UI.app u)) <> [] /\
  totalAnswered (App.quizState (UI.app u)) =
    List.length (words (App.quizState (UI.app u))) /\
  score (App.quizState (UI.app u)) <= List.length (words (App.quizState (UI.app u))).
Proof.
  intros H Hs. destruct (reachable_all u H) as [_ [_ [_ _ Hsess _ _]]].
  unfold App.screen in Hs.
  destruct (App.loadingState (UI.app u)) eqn:El; try discriminate.
  destruct (isFinished (App.quizState (UI.app u))) eqn:Ef; try discriminate.
  destruct (reachable_invariant _ _ (Hsess eq_refl)) as [_ Hsc _ _ Hfin].
  destruct (Hfin Ef) as [Hidx Htot].
  repeat split.
  - intros E. rewrite E in Hidx. cbn in Hidx. lia.
  - exact Htot.
  - lia.
Qed.

End Progress.

Lemma answer_witness :
  exists u1,
    UI.steps (J := Sample.runtime)
             [UI.TypeAnswer Sample.guoshi; UI.SubmitAnswer]
             (after batch_arrived) = Some u1 /\
    (showsResult u1 = true \/
     forall r, exists u2,
       UI.step (J := Sample.runtime) (UI.CheckSettles 0 r) u1 = Some u2 /\
       showsResult u2 = true).
Proof.
  apply (answer_reaches_a_result (J := Sample.runtime)
           (after batch_arrived) (Card.mount Sample.fruit) Sample.guoshi).
  - apply after_reachable. discriminate.
  - discriminate.
  - reflexivity.
  - reflexivity.
  - reflexivity.
Defined.

Lemma result_screen_witness :
  words (App.quizState (UI.app (after quiz_done))) <> [] /\
  totalAnswered (App.quizState (UI.app (after quiz_done))) =
    List.length (words (App.quizState (UI.app (after quiz_done)))) /\
  score (App.quizState (UI.app (after quiz_done))) <=
    List.length (words (App.quizState (UI.app (after quiz_done)))).
Proof.
  apply (result_screen_has_a_full_batch (J := Sample.runtime) (after quiz_done)).
  - apply after_reachable. discriminate.
  - reflexivity.
Defined.
